(** * INTENT badge evaluation service

    A shallow embedding of the badge engine of
    [supabase/functions/generate-image/index.ts] (second document of the
    file: "INTENT Platform - Badge Evaluation Service"), together with the
    three tables of the migration it reads and writes
    ([user_badge_progress], [badges], [badge_unlocks]); then the client
    hooks of [src/hooks/useBadges.ts] that read these tables, and the
    nonce cleanup function.

    Conventions of the embedding.
    - Integer columns ([INTEGER NOT NULL]) and the integer fields of the
      criteria JSON are [Z].
    - A nullable column or an optional JSON key is an [option].
    - [TIMESTAMP WITH TIME ZONE] columns are instants: the number of
      milliseconds that [new Date(column)] denotes.
    - Calendar dates ([last_active_date], the [toISOString] prefixes the
      handler computes) stay strings, as the handler compares them.
    - The value of [calculateIntentScore] is an exact rational: the
      rounding of binary64 arithmetic is not part of the model.
    - The column [intent_score] is [NUMERIC(4,2)]: the datastore keeps
      what is written to it rounded to two decimals ([numeric_4_2]);
      the score is never within 1/600 of a tie ([score_clear_of_ties]),
      so the hundredth kept is that of the binary64 number as well.
    - Every reading of the clock is an input of the function that reads
      it. *)

From Stdlib Require Import ZArith QArith Qminmax Qround Lqa Sorted.
From stdpp Require Import gmap strings list pretty sorting.

Local Open Scope Z_scope.

(** ** JavaScript truthiness at the types the service uses *)

Module Js.

(** [x || 0] for a number [x]. *)
Definition or0 (x : Z) : Z := if x =? 0 then 0 else x.

(** [x || 0] for a possibly missing number. *)
Definition or0_opt (x : option Z) : Z :=
  match x with
  | Some n => or0 n
  | None => 0
  end.

(** Truthiness of a possibly missing boolean. *)
Definition truthy_bool (x : option bool) : bool :=
  match x with
  | Some b => b
  | None => false
  end.

(** Truthiness of a string: only the empty string is falsy. *)
Definition truthy_str (s : string) : bool :=
  negb (String.eqb s "").

(** Truthiness of a possibly missing string. *)
Definition truthy_str_opt (x : option string) : bool :=
  match x with
  | Some s => truthy_str s
  | None => false
  end.

(** [k && counter < k] for an optional numeric key [k]: a missing key
    and the key [0] are falsy. *)
Definition set_and_above (k : option Z) (counter : Z) : bool :=
  match k with
  | Some t => negb (t =? 0) && (counter <? t)
  | None => false
  end.

End Js.

(** ** Data model (the three interfaces of the service) *)

Record ShareState := { shares : Z }.
Record ShareEngagementState := { shares3 : Z; engagement3 : Z }.

Record BadgeCriteria := {
  min_transactions : option Z;
  min_consecutive_days : option Z;
  min_protocols : option Z;
  verified_on_chain : option bool;
  first_24h_launch : option bool;
  mainnet_first_24h : option bool;
  protocol : option string;
  within_days : option Z;
  state_1 : option ShareState;
  state_2 : option ShareState;
  state_3 : option ShareEngagementState
}.

Record UserProgress := {
  user_id : string;
  wallet_address : string;
  total_transactions : Z;
  unique_protocols : Z;
  protocols_interacted : list string;
  consecutive_days : Z;
  last_active_date : option string;
  max_consecutive_days : Z;
  social_shares : Z;
  total_engagement : Z;
  voice_state : Z;
  intent_score : Q;
  current_identity_badge : option string
}.

Record Badge := {
  id : string;
  slug : string;
  name : string;
  layer : string;
  rarity : string;
  criteria : BadgeCriteria;
  is_progression : bool;
  progression_order : option Z;
  event_window_start : option Z;
  event_window_end : option Z
}.

(** ** checkBadgeCriteria *)

(** The time-window test of the event badges.  [now] is the instant
    [new Date()] returns inside the function. *)
Definition outside_window (now : Z) (badge : Badge) : bool :=
  match event_window_start badge, event_window_end badge with
  | Some start, Some end_ => (now <? start) || (now >? end_)
  | _, _ => false
  end.

Definition checkBadgeCriteria (now : Z) (badge : Badge) (progress : UserProgress) : bool :=
  let criteria := criteria badge in
  if Js.set_and_above (min_transactions criteria) (total_transactions progress) then false
  else if Js.set_and_above (min_consecutive_days criteria) (consecutive_days progress) then false
  else if Js.set_and_above (min_protocols criteria) (unique_protocols progress) then false
  else if Js.truthy_bool (verified_on_chain criteria) && (total_transactions progress <? 1) then false
  else if outside_window now badge then false
  else true.

(** ** calculateIntentScore *)

Definition calculateIntentScore (progress : UserProgress) : Q :=
  let score := 0%Q in
  let score := (score + Qmin (inject_Z (total_transactions progress) / 50) 2)%Q in
  let score := (score + Qmin (inject_Z (unique_protocols progress) / 5) 2)%Q in
  let score := (score + Qmin (inject_Z (consecutive_days progress) / 10) 3)%Q in
  let score := (score + Qmin (inject_Z (max_consecutive_days progress) / 15) 2)%Q in
  let score := (score + Qmin (inject_Z (social_shares progress) / 10) 1)%Q in
  Qmin score 10.

(** The five contributions, named as the score comments name them. *)
Definition transactions_points (progress : UserProgress) : Q :=
  Qmin (inject_Z (total_transactions progress) / 50) 2.
Definition protocols_points (progress : UserProgress) : Q :=
  Qmin (inject_Z (unique_protocols progress) / 5) 2.
Definition consecutive_points (progress : UserProgress) : Q :=
  Qmin (inject_Z (consecutive_days progress) / 10) 3.
Definition max_consecutive_points (progress : UserProgress) : Q :=
  Qmin (inject_Z (max_consecutive_days progress) / 15) 2.
Definition social_points (progress : UserProgress) : Q :=
  Qmin (inject_Z (social_shares progress) / 10) 1.

(** The five counters the score reads.  The service only ever stores
    counts in them: the columns start at 0 and are only incremented,
    set to 1 or set to a list length (see [counters_nonneg_reachable]). *)
Definition counters_nonneg (progress : UserProgress) : Prop :=
  0 <= total_transactions progress /\
  0 <= unique_protocols progress /\
  0 <= consecutive_days progress /\
  0 <= max_consecutive_days progress /\
  0 <= social_shares progress.

(** ** getVoiceState *)

Definition getVoiceState (progress : UserProgress) : Z :=
  if (social_shares progress >=? 10) && (total_engagement progress >=? 100) then 3
  else if social_shares progress >=? 5 then 2
  else if social_shares progress >=? 1 then 1
  else 0.

(** ** The datastore and the world of a request *)

(** A row of [badge_unlocks], with the columns the service writes. *)
Record UnlockRow := {
  ul_user_id : string;
  ul_wallet_address : string;
  ul_badge_id : string;
  trigger_event : string;
  trigger_tx_hash : option string
}.

(** A row of [badges]: the fields of the [Badge] interface and the
    [is_active] column the catalog query filters on. *)
Record BadgeRow := {
  badge_of : Badge;
  is_active : bool
}.

(** [user_badge_progress] has [UNIQUE (user_id)]: a map from the user id. *)
Record Db := {
  user_badge_progress : gmap string UserProgress;
  badges : list BadgeRow;
  badge_unlocks : list UnlockRow
}.

Record World := {
  db : Db;
  console : list string
}.

Definition with_progress (t : gmap string UserProgress) (w : World) : World :=
  {| db := {| user_badge_progress := t;
              badges := badges (db w);
              badge_unlocks := badge_unlocks (db w) |};
     console := console w |}.

Definition with_unlocks (u : list UnlockRow) (w : World) : World :=
  {| db := {| user_badge_progress := user_badge_progress (db w);
              badges := badges (db w);
              badge_unlocks := u |};
     console := console w |}.

Definition console_log (line : string) (w : World) : World :=
  {| db := db w; console := console w ++ [line] |}.

(** What a request finds outside the datastore's contents: the readings
    of the clock and, for each datastore call, whether it comes back with
    an [error] (a refused write, such as a value outside the range of
    its column, is such an answer). *)
Record Env := {
  today : string;
  yesterdayStr : string;
  now_at : string -> Z;
  select_progress_error : bool;
  create_progress_error : bool;
  update_progress_error : bool;
  select_badges_error : bool;
  select_unlocks_error : bool;
  insert_unlock_error : string -> bool;
  update_score_error : bool
}.

Record EventData := {
  ev_protocol : option string;
  ev_txHash : option string;
  ev_engagement : option Z
}.

Record Body := {
  action : string;
  userId : option string;
  walletAddress : option string;
  eventData : option EventData
}.

(** [body = None]: [req.json()] rejects. *)
Record Request := {
  method : string;
  body : option Body
}.

Record ProgressSummary := {
  totalTransactions : Z;
  uniqueProtocols : Z;
  consecutiveDays : Z
}.

Record Success := {
  newUnlocks : list string;
  intentScore : Q;
  currentIdentityBadge : option string;
  progress : ProgressSummary
}.

Inductive Response :=
| Preflight
| Ok (payload : Success)
| BadRequest (error : string)
| InternalServerError (error : string).

(** ** A state and exception monad for the handler's [try] block *)

Inductive Outcome (A : Type) :=
| Returned (a : A)
| Thrown.
Arguments Returned {A} a.
Arguments Thrown {A}.

Definition Eff (A : Type) : Type := World -> Outcome A * World.

#[global] Instance Eff_ret : MRet Eff :=
  fun A a w => (Returned a, w).

#[global] Instance Eff_bind : MBind Eff :=
  fun A B k m w =>
    match m w with
    | (Returned a, w') => k a w'
    | (Thrown, w') => (Thrown, w')
    end.

Definition throw {A : Type} : Eff A := fun w => (Thrown, w).

Definition get_world : Eff World := fun w => (Returned w, w).

Definition modify_world (f : World -> World) : Eff unit :=
  fun w => (Returned tt, f w).

(** ** Datastore calls *)

(** What a [NUMERIC(4,2)] column keeps of a number written to it: the
    nearest multiple of 0.01, a tie going away from zero. *)
Definition numeric_4_2 (x : Q) : Q :=
  if Qle_bool 0 x then Qmake (Qfloor (x * 100 + (1 # 2))%Q) 100
  else Qmake (- Qfloor (- x * 100 + (1 # 2))%Q) 100.

(** The row [insert({user_id, wallet_address})] creates: every other
    column takes its default. *)
Definition new_progress (uid wallet : string) : UserProgress :=
  {| user_id := uid; wallet_address := wallet;
     total_transactions := 0; unique_protocols := 0;
     protocols_interacted := [];
     consecutive_days := 0; last_active_date := None;
     max_consecutive_days := 0;
     social_shares := 0; total_engagement := 0; voice_state := 0;
     intent_score := 0%Q; current_identity_badge := None |}.

(** "Get or create user progress". *)
Definition get_or_create_progress (env : Env) (uid wallet : string) : Eff UserProgress :=
  w ← get_world;
  match (if select_progress_error env then None
         else Some (user_badge_progress (db w) !! uid)) with
  | Some (Some row) => mret row
  | Some None =>
      (* progressError.code === 'PGRST116' *)
      if create_progress_error env then throw
      else
        modify_world (with_progress (<[uid := new_progress uid wallet]> (user_badge_progress (db w))));;
        mret (new_progress uid wallet)
  | None => throw
  end.

(** [from('user_badge_progress').update(patch).eq('user_id', uid)]. *)
Definition update_progress (failed : bool) (uid : string)
    (patch : UserProgress -> UserProgress) : Eff bool :=
  if failed then mret true
  else
    modify_world (fun w => with_progress (alter patch uid (user_badge_progress (db w))) w);;
    mret false.

(** [from('badges').select('*').eq('is_active', true)]. *)
Definition select_active_badges (env : Env) : Eff (list Badge) :=
  w ← get_world;
  if select_badges_error env then throw
  else mret (badge_of <$> filter (fun r => is_active r = true) (badges (db w))).

(** [from('badge_unlocks').select('badge_id').eq('user_id', uid)]. *)
Definition select_unlocks (env : Env) (uid : string) : Eff (list string) :=
  w ← get_world;
  if select_unlocks_error env then throw
  else mret (ul_badge_id <$> filter (fun r => ul_user_id r = uid) (badge_unlocks (db w))).

(** [UNIQUE (user_id, badge_id)] on [badge_unlocks]. *)
Definition unlock_exists (uid bid : string) (rows : list UnlockRow) : bool :=
  existsb (fun r => String.eqb (ul_user_id r) uid && String.eqb (ul_badge_id r) bid) rows.

(** [from('badge_unlocks').insert(row)]; the result is whether the call
    came back with an error. *)
Definition insert_unlock (env : Env) (row : UnlockRow) : Eff bool :=
  w ← get_world;
  if insert_unlock_error env (ul_badge_id row)
     || unlock_exists (ul_user_id row) (ul_badge_id row) (badge_unlocks (db w))
  then mret true
  else
    modify_world (with_unlocks (badge_unlocks (db w) ++ [row]));;
    mret false.

(** ** The [transaction] case *)

(** [if (protocol && !protocols.includes(protocol)) protocols.push(protocol)] *)
Definition push_protocol (protocol : option string) (protocols : list string) : list string :=
  match protocol with
  | Some p =>
      if Js.truthy_str p && negb (bool_decide (p ∈ protocols))
      then protocols ++ [p]
      else protocols
  | None => protocols
  end.

(** "Update consecutive days". *)
Definition next_consecutive_days (today yesterdayStr : string)
    (lastActive : option string) (consecutiveDays : Z) : Z :=
  if negb (bool_decide (lastActive = Some today)) then
    if bool_decide (lastActive = Some yesterdayStr) then consecutiveDays + 1
    else if negb (bool_decide (lastActive = Some today)) then 1
    else consecutiveDays
  else consecutiveDays.

(** The six fields the [transaction] case computes from the loaded
    [progress]; the handler writes them to the row and then onto its own
    copy of the record. *)
Definition transaction_patch (env : Env) (data : option EventData)
    (progress row : UserProgress) : UserProgress :=
  let protocols := push_protocol (data ≫= ev_protocol) (protocols_interacted progress) in
  let consecutiveDays :=
    next_consecutive_days (today env) (yesterdayStr env)
      (last_active_date progress) (Js.or0 (consecutive_days progress)) in
  let maxConsecutive := Z.max (Js.or0 (max_consecutive_days progress)) consecutiveDays in
  {| user_id := user_id row;
     wallet_address := wallet_address row;
     total_transactions := Js.or0 (total_transactions progress) + 1;
     unique_protocols := Z.of_nat (length protocols);
     protocols_interacted := protocols;
     consecutive_days := consecutiveDays;
     last_active_date := Some (today env);
     max_consecutive_days := maxConsecutive;
     social_shares := social_shares row;
     total_engagement := total_engagement row;
     voice_state := voice_state row;
     intent_score := intent_score row;
     current_identity_badge := current_identity_badge row |}.

(** ** The [social_share] case *)

(** The handler's own copy after a share: the two totals. *)
Definition social_share_refresh (data : option EventData)
    (progress row : UserProgress) : UserProgress :=
  {| user_id := user_id row;
     wallet_address := wallet_address row;
     total_transactions := total_transactions row;
     unique_protocols := unique_protocols row;
     protocols_interacted := protocols_interacted row;
     consecutive_days := consecutive_days row;
     last_active_date := last_active_date row;
     max_consecutive_days := max_consecutive_days row;
     social_shares := Js.or0 (social_shares progress) + 1;
     total_engagement :=
       Js.or0 (total_engagement progress) + Js.or0_opt (data ≫= ev_engagement);
     voice_state := voice_state row;
     intent_score := intent_score row;
     current_identity_badge := current_identity_badge row |}.

(** The update sent to the datastore: the two totals and the voice state
    [getVoiceState] gives for them. *)
Definition social_share_patch (data : option EventData)
    (progress row : UserProgress) : UserProgress :=
  {| user_id := user_id row;
     wallet_address := wallet_address row;
     total_transactions := total_transactions row;
     unique_protocols := unique_protocols row;
     protocols_interacted := protocols_interacted row;
     consecutive_days := consecutive_days row;
     last_active_date := last_active_date row;
     max_consecutive_days := max_consecutive_days row;
     social_shares := Js.or0 (social_shares progress) + 1;
     total_engagement :=
       Js.or0 (total_engagement progress) + Js.or0_opt (data ≫= ev_engagement);
     voice_state := getVoiceState (social_share_refresh data progress progress);
     intent_score := intent_score row;
     current_identity_badge := current_identity_badge row |}.

(** [switch (action)]: the two handled cases; any other action leaves
    the progress as loaded. *)
Definition apply_action (env : Env) (b : Body) (uid : string)
    (progress : UserProgress) : Eff UserProgress :=
  if String.eqb (action b) "transaction" then
    updateError ← update_progress (update_progress_error env) uid
                    (transaction_patch env (eventData b) progress);
    if updateError : bool then throw
    else mret (transaction_patch env (eventData b) progress progress)
  else if String.eqb (action b) "social_share" then
    updateError ← update_progress (update_progress_error env) uid
                    (social_share_patch (eventData b) progress);
    if updateError : bool then throw
    else mret (social_share_refresh (eventData b) progress progress)
  else mret progress.

(** ** The unlock loop *)

Definition unlock_row (b : Body) (uid wallet : string) (badge : Badge) : UnlockRow :=
  {| ul_user_id := uid;
     ul_wallet_address := wallet;
     ul_badge_id := id badge;
     trigger_event := action b;
     trigger_tx_hash :=
       match eventData b ≫= ev_txHash with
       | Some h => if Js.truthy_str h then Some h else None
       | None => None
       end |}.

Definition unlocked_line (badge : Badge) (wallet : string) : string :=
  "[badge-service] Unlocked badge: " +:+ name badge +:+ " for " +:+ wallet.

(** "Check each badge": [newUnlocks] is the list collected so far. *)
Fixpoint unlock_loop (env : Env) (b : Body) (uid wallet : string)
    (unlockedBadgeIds : gset string) (progress : UserProgress)
    (catalog : list Badge) (newUnlocks : list string) : Eff (list string) :=
  match catalog with
  | [] => mret newUnlocks
  | badge :: rest =>
      if bool_decide (id badge ∈ unlockedBadgeIds) then
        unlock_loop env b uid wallet unlockedBadgeIds progress rest newUnlocks
      else if checkBadgeCriteria (now_at env (id badge)) badge progress then
        unlockError ← insert_unlock env (unlock_row b uid wallet badge);
        if unlockError : bool then
          unlock_loop env b uid wallet unlockedBadgeIds progress rest newUnlocks
        else
          modify_world (console_log (unlocked_line badge wallet));;
          unlock_loop env b uid wallet unlockedBadgeIds progress rest
            (newUnlocks ++ [slug badge])
      else
        unlock_loop env b uid wallet unlockedBadgeIds progress rest newUnlocks
  end.

(** ** The current identity badge *)

(** [Array.prototype.sort(compare)]: a stable sort; an element goes
    before the first element it does not compare greater than. *)
Fixpoint sort_insert {A : Type} (compare : A -> A -> Z) (x : A) (l : list A) : list A :=
  match l with
  | [] => [x]
  | y :: ys => if compare x y <=? 0 then x :: y :: ys else y :: sort_insert compare x ys
  end.

Definition Array_sort {A : Type} (compare : A -> A -> Z) (l : list A) : list A :=
  foldr (sort_insert compare) [] l.

Definition is_identity_progression (b : Badge) : bool :=
  String.eqb (layer b) "identity" && is_progression b.

(** [(a, b) => (b.progression_order || 0) - (a.progression_order || 0)] *)
Definition by_descending_order (a b : Badge) : Z :=
  Js.or0_opt (progression_order b) - Js.or0_opt (progression_order a).

Definition identityBadges (catalog : list Badge) : list Badge :=
  Array_sort by_descending_order (List.filter is_identity_progression catalog).

Definition holds_badge (unlockedBadgeIds : gset string) (newUnlocks : list string)
    (badge : Badge) : bool :=
  bool_decide (id badge ∈ unlockedBadgeIds) || bool_decide (slug badge ∈ newUnlocks).

(** "Find highest unlocked identity badge". *)
Definition find_current_identity_badge (catalog : list Badge)
    (unlockedBadgeIds : gset string) (newUnlocks : list string) : option string :=
  slug <$> List.find (holds_badge unlockedBadgeIds newUnlocks) (identityBadges catalog).

(** ** The request handler *)

(** The last update of the handler: [intent_score] and
    [current_identity_badge].  The score goes to a [NUMERIC(4,2)]
    column, which keeps it rounded to two decimals. *)
Definition score_patch (score : Q) (current : option string) (row : UserProgress) : UserProgress :=
  {| user_id := user_id row;
     wallet_address := wallet_address row;
     total_transactions := total_transactions row;
     unique_protocols := unique_protocols row;
     protocols_interacted := protocols_interacted row;
     consecutive_days := consecutive_days row;
     last_active_date := last_active_date row;
     max_consecutive_days := max_consecutive_days row;
     social_shares := social_shares row;
     total_engagement := total_engagement row;
     voice_state := voice_state row;
     intent_score := numeric_4_2 score;
     current_identity_badge := current |}.

Definition falsy (s : option string) : bool := negb (Js.truthy_str_opt s).

(** The handler from "Get all active badges" to the response. *)
Definition evaluate_badges (env : Env) (b : Body) (uid wallet : string)
    (progress : UserProgress) : Eff Response :=
  catalog ← select_active_badges env;
  unlocks ← select_unlocks env uid;
  let unlockedBadgeIds : gset string := list_to_set unlocks in
  newUnlocks ← unlock_loop env b uid wallet unlockedBadgeIds progress catalog [];
  let intentScore := calculateIntentScore progress in
  let currentIdentityBadge :=
    find_current_identity_badge catalog unlockedBadgeIds newUnlocks in
  update_progress (update_score_error env) uid
    (score_patch intentScore currentIdentityBadge);;
  mret (Ok {| newUnlocks := newUnlocks;
              intentScore := intentScore;
              currentIdentityBadge := currentIdentityBadge;
              progress := {| totalTransactions := total_transactions progress;
                             uniqueProtocols := unique_protocols progress;
                             consecutiveDays := consecutive_days progress |} |}).

Definition processing_line (b : Body) (wallet : string) : string :=
  "[badge-service] Processing " +:+ action b +:+ " for wallet " +:+ wallet.

(** The body of the [try] block. *)
Definition process (env : Env) (req : Request) : Eff Response :=
  match body req with
  | None => throw
  | Some b =>
      if falsy (userId b) || falsy (walletAddress b) then
        mret (BadRequest "Missing userId or walletAddress")
      else
        let uid := default "" (userId b) in
        let wallet := default "" (walletAddress b) in
        modify_world (console_log (processing_line b wallet));;
        loaded ← get_or_create_progress env uid wallet;
        progress ← apply_action env b uid loaded;
        evaluate_badges env b uid wallet progress
  end.

(** [Deno.serve(async (req) => ...)]: the preflight answer, the [try]
    block and its [catch]. *)
Definition handler (env : Env) (req : Request) (w : World) : Response * World :=
  if String.eqb (method req) "OPTIONS" then (Preflight, w)
  else
    match process env req w with
    | (Returned response, w') => (response, w')
    | (Thrown, w') =>
        (InternalServerError "Internal server error",
         console_log "[badge-service] Error:" w')
    end.

(** A sequence of requests, each with what it finds outside the
    datastore. *)
Definition run_events (events : list (Env * Request)) (w : World) : World :=
  foldl (fun w e => snd (handler (fst e) (snd e) w)) w events.

(** * The client hooks of [src/hooks/useBadges.ts]

    The hooks read the tables the service writes.  What React Query
    hands them is an argument here: the catalog ([useBadges]), the
    user's progress, if any ([useUserBadgeProgress]), and the user's
    unlocks joined with their badge ([useUserBadgeUnlocks]).
    [transformBadge] and [transformProgress] only rename the columns, so
    the client's [Badge] and [UserBadgeProgress] are the records
    [Badge] and [UserProgress] above. *)

Module Client.

(** A [BadgeUnlock]: [badge] is the joined catalog row, when the join
    returned one. *)
Record BadgeUnlock := {
  unlock_id : string;
  badgeId : string;
  badge : option Badge;
  unlockedAt : string;
  triggerTxHash : option string;
  triggerEvent : option string;
  isDisplayed : bool;
  displayOrder : option Z
}.

Record BadgeProgress := {
  progress_badge : Badge;
  currentValue : Z;
  targetValue : Z;
  percentage : Q;
  description : string
}.

Record ProfileBadges := {
  identity : option BadgeUnlock;
  proof : list BadgeUnlock;
  event : list BadgeUnlock;
  social : option BadgeUnlock
}.

(** Truthiness of a possibly missing number. *)
Definition truthy_num (k : option Z) : bool :=
  match k with
  | Some n => negb (n =? 0)
  | None => false
  end.

(** The sign of a comparator's result, all that [sort] reads of it. *)
Definition Qsgn (q : Q) : Z := Z.sgn (Qnum q).

(** ** useBadgeProgressList *)

(** "Calculate based on criteria": the first of the three minimums that
    is set gives the current value, the target and the description. *)
Definition measure (progress : UserProgress) (criteria : BadgeCriteria) : Z * Z * string :=
  if truthy_num (min_transactions criteria) then
    (total_transactions progress, Js.or0_opt (min_transactions criteria),
     pretty (total_transactions progress) +:+ "/"
       +:+ pretty (Js.or0_opt (min_transactions criteria)) +:+ " transactions")
  else if truthy_num (min_consecutive_days criteria) then
    (consecutive_days progress, Js.or0_opt (min_consecutive_days criteria),
     pretty (consecutive_days progress) +:+ "/"
       +:+ pretty (Js.or0_opt (min_consecutive_days criteria)) +:+ " consecutive days")
  else if truthy_num (min_protocols criteria) then
    (unique_protocols progress, Js.or0_opt (min_protocols criteria),
     pretty (unique_protocols progress) +:+ "/"
       +:+ pretty (Js.or0_opt (min_protocols criteria)) +:+ " protocols")
  else (0, 0, "").

(** One turn of the loop: nothing for an unlocked badge, nothing
    without a positive target. *)
Definition milestone (progress : UserProgress) (unlockedBadgeIds : gset string)
    (b : Badge) : option BadgeProgress :=
  if bool_decide (id b ∈ unlockedBadgeIds) then None
  else
    let '(current, target, text) := measure progress (criteria b) in
    if target >? 0 then
      Some {| progress_badge := b;
              currentValue := current;
              targetValue := target;
              percentage := Qmin (inject_Z current / inject_Z target * 100) 100;
              description := text |}
    else None.

(** [(a, b) => b.percentage - a.percentage] *)
Definition by_descending_percentage (a b : BadgeProgress) : Z :=
  Qsgn (percentage b - percentage a).

Definition unlocked_ids (unlocks : list BadgeUnlock) : gset string :=
  list_to_set (badgeId <$> unlocks).

Definition progressList (badges : list Badge) (progress : UserProgress)
    (unlocks : list BadgeUnlock) : list BadgeProgress :=
  omap (milestone progress (unlocked_ids unlocks)) badges.

Definition useBadgeProgressList (badges : list Badge) (progress : option UserProgress)
    (unlocks : list BadgeUnlock) : list BadgeProgress :=
  match progress with
  | None => []
  | Some progress =>
      take 3 (Array_sort by_descending_percentage (progressList badges progress unlocks))
  end.

(** ** useProfileBadges *)

(** [new Map(unlocks.map(u => [u.badgeId, u]))]: a later entry replaces
    an earlier one with the same key. *)
Definition unlocksByBadge (unlocks : list BadgeUnlock) : gmap string BadgeUnlock :=
  foldl (fun m u => <[badgeId u := u]> m) ∅ unlocks.

(** [u.badge?.layer === l] *)
Definition layer_is (l : string) (u : BadgeUnlock) : bool :=
  match badge u with
  | Some b => String.eqb (layer b) l
  | None => false
  end.

Definition identityBadges (badges : list Badge) : list Badge :=
  Array_sort by_descending_order
    (List.filter (fun b => String.eqb (layer b) "identity") badges).

(** [(a, b) => (a.displayOrder || 0) - (b.displayOrder || 0)] *)
Definition by_display_order (a b : BadgeUnlock) : Z :=
  Js.or0_opt (displayOrder a) - Js.or0_opt (displayOrder b).

Definition useProfileBadges (badges : list Badge) (unlocks : list BadgeUnlock)
    : ProfileBadges :=
  {| identity :=
       mjoin (List.find (fun u => bool_decide (is_Some u))
                ((fun b => unlocksByBadge unlocks !! id b) <$> identityBadges badges));
     proof := List.filter (layer_is "proof") unlocks;
     event :=
       take 3 (Array_sort by_display_order
                 (List.filter (fun u => layer_is "event" u && isDisplayed u) unlocks));
     social := List.find (layer_is "social") unlocks |}.

End Client.

(** * The nonce cleanup function

    The edge function that deletes the expired rows of [siwe_nonces]
    ("Dedicated nonce cleanup edge function").  [expires_at] is an
    instant; [now] is the instant of the [new Date()] the handler reads
    and [nowIso] its [toISOString()]. *)

Module Cleanup.

Record Nonce := {
  nonce : string;
  expires_at : Z
}.

Record World := {
  siwe_nonces : list Nonce;
  console : list string
}.

Record Env := {
  serviceKey : string;
  now : Z;
  nowIso : string;
  delete_error : bool;
  count_error : bool
}.

(** [authorization]: [req.headers.get('Authorization')]. *)
Record Request := {
  method : string;
  authorization : option string
}.

Record Summary := {
  deleted : nat;
  remaining : nat;
  cleanedAt : string
}.

Inductive Response :=
| Preflight
| Unauthorized (error : string)
| Failed (error : string)
| Cleaned (summary : Summary).

Definition log (line : string) (w : World) : World :=
  {| siwe_nonces := siwe_nonces w; console := console w ++ [line] |}.

Definition expired (env : Env) (n : Nonce) : bool := expires_at n <? now env.

(** [!authHeader || authHeader !== `Bearer ${supabaseServiceKey}`] *)
Definition rejected (env : Env) (req : Request) : bool :=
  match authorization req with
  | Some header =>
      negb (Js.truthy_str header)
      || negb (String.eqb header ("Bearer " +:+ serviceKey env))
  | None => true
  end.

Definition handler (env : Env) (req : Request) (w : World) : Response * World :=
  if String.eqb (method req) "OPTIONS" then (Preflight, w)
  else if rejected env req then
    (Unauthorized "Authentication required",
     log "[CleanupNonces] Unauthorized access attempt" w)
  else if delete_error env then
    (Failed "Failed to cleanup nonces", log "[CleanupNonces] Deletion error:" w)
  else
    let data := List.filter (expired env) (siwe_nonces w) in
    let kept := List.filter (fun n => negb (expired env n)) (siwe_nonces w) in
    let deletedCount := length data in
    let w' :=
      log ("[CleanupNonces] Successfully cleaned up " +:+ pretty deletedCount
             +:+ " expired nonces")
        {| siwe_nonces := kept; console := console w |} in
    let totalNonces := if count_error env then None else Some (length kept) in
    (Cleaned {| deleted := deletedCount;
                remaining := default 0%nat totalNonces;
                cleanedAt := nowIso env |},
     w').

End Cleanup.

(** * Vocabulary of the properties *)

(** The event-window check passes: there is no window (one of the two
    bounds is missing), or the current time lies within it. *)
Definition window_check_passes (now : Z) (badge : Badge) : Prop :=
  match event_window_start badge, event_window_end badge with
  | Some start, Some end_ => start <= now <= end_
  | _, _ => True
  end.

(** A numeric key present with value [0], or a boolean key present with
    value [false], taken out of the criteria. *)
Definition absent_if_zero (k : option Z) : option Z :=
  match k with
  | Some 0 => None
  | _ => k
  end.

Definition absent_if_false (k : option bool) : option bool :=
  match k with
  | Some false => None
  | _ => k
  end.

Definition drop_falsy_keys (c : BadgeCriteria) : BadgeCriteria :=
  {| min_transactions := absent_if_zero (min_transactions c);
     min_consecutive_days := absent_if_zero (min_consecutive_days c);
     min_protocols := absent_if_zero (min_protocols c);
     verified_on_chain := absent_if_false (verified_on_chain c);
     first_24h_launch := first_24h_launch c;
     mainnet_first_24h := mainnet_first_24h c;
     protocol := protocol c;
     within_days := within_days c;
     state_1 := state_1 c;
     state_2 := state_2 c;
     state_3 := state_3 c |}.

Definition with_criteria (c : BadgeCriteria) (badge : Badge) : Badge :=
  {| id := id badge; slug := slug badge; name := name badge;
     layer := layer badge; rarity := rarity badge;
     criteria := c;
     is_progression := is_progression badge;
     progression_order := progression_order badge;
     event_window_start := event_window_start badge;
     event_window_end := event_window_end badge |}.

(** The score as the specification words it: the five capped
    contributions summed, the total capped at 10. *)
Definition spec_intent_score (progress : UserProgress) : Q :=
  Qmin (transactions_points progress + protocols_points progress
        + consecutive_points progress + max_consecutive_points progress
        + social_points progress) 10.

(** The claim that the score lies in [0, 10] for every progress state. *)
Definition score_always_in_range : Prop :=
  forall progress : UserProgress, (0 <= calculateIntentScore progress <= 10)%Q.

(** The counters of a progress record. *)
Inductive Counter :=
| TotalTransactions
| UniqueProtocols
| ConsecutiveDays
| MaxConsecutiveDays
| SocialShares
| TotalEngagement.

#[global] Instance Counter_eq_dec : EqDecision Counter.
Proof. solve_decision. Defined.

Definition counter (c : Counter) (progress : UserProgress) : Z :=
  match c with
  | TotalTransactions => total_transactions progress
  | UniqueProtocols => unique_protocols progress
  | ConsecutiveDays => consecutive_days progress
  | MaxConsecutiveDays => max_consecutive_days progress
  | SocialShares => social_shares progress
  | TotalEngagement => total_engagement progress
  end.

(** [q] is [p] with the counter [c] raised (or kept) and every other
    counter as it was. *)
Definition raises_only (c : Counter) (p q : UserProgress) : Prop :=
  counter c p <= counter c q /\
  forall c', c' <> c -> counter c' p = counter c' q.

(** The row of user [u] exists and its high-water mark is at least [m]. *)
Definition max_streak_at_least (u : string) (m : Z) (w : World) : Prop :=
  exists row,
    user_badge_progress (db w) !! u = Some row /\ m <= max_consecutive_days row.

(** The request is a [POST] whose body names a user and a wallet. *)
Definition accepted (req : Request) (b : Body) (uid wallet : string) : Prop :=
  String.eqb (method req) "OPTIONS" = false /\
  body req = Some b /\
  userId b = Some uid /\ uid <> "" /\
  walletAddress b = Some wallet /\ wallet <> "".

(** The datastore answers the calls on [user_badge_progress] that
    precede the badge evaluation without error. *)
Definition progress_calls_succeed (env : Env) : Prop :=
  select_progress_error env = false /\
  create_progress_error env = false /\
  update_progress_error env = false.

(** The progress record the handler works from: the user's row, or the
    row it creates when there is none. *)
Definition loaded_progress (w : World) (uid wallet : string) : UserProgress :=
  default (new_progress uid wallet) (user_badge_progress (db w) !! uid).

(** The update that the [switch] sends for the loaded record. *)
Definition action_patch (env : Env) (b : Body) (loaded : UserProgress)
    : UserProgress -> UserProgress :=
  if String.eqb (action b) "transaction" then transaction_patch env (eventData b) loaded
  else if String.eqb (action b) "social_share" then social_share_patch (eventData b) loaded
  else fun row => row.

(** The handler's own copy of the record after the [switch]. *)
Definition progress_after (env : Env) (b : Body) (loaded : UserProgress) : UserProgress :=
  if String.eqb (action b) "transaction" then
    transaction_patch env (eventData b) loaded loaded
  else if String.eqb (action b) "social_share" then
    social_share_refresh (eventData b) loaded loaded
  else loaded.

(** The world once the record is loaded, and once the [switch] has
    written its update, when the datastore reports no error. *)
Definition load_world (uid wallet : string) (w : World) : World :=
  match user_badge_progress (db w) !! uid with
  | Some _ => w
  | None =>
      with_progress (<[uid := new_progress uid wallet]> (user_badge_progress (db w))) w
  end.

Definition action_world (env : Env) (b : Body) (uid : string) (loaded : UserProgress)
    (w : World) : World :=
  if String.eqb (action b) "transaction" || String.eqb (action b) "social_share" then
    with_progress (alter (action_patch env b loaded) uid (user_badge_progress (db w))) w
  else w.

(** The world in which the badges of an accepted request are evaluated. *)
Definition evaluation_world (env : Env) (b : Body) (uid wallet : string) (w : World) : World :=
  action_world env b uid (loaded_progress w uid wallet)
    (load_world uid wallet (console_log (processing_line b wallet) w)).

(** The datastore answers the two queries of the badge evaluation
    without error. *)
Definition badge_calls_succeed (env : Env) : Prop :=
  select_badges_error env = false /\ select_unlocks_error env = false.

(** The catalog a request loads and the set of badge ids the user has
    unlocked before it. *)
Definition active_catalog (w : World) : list Badge :=
  badge_of <$> filter (fun r => is_active r = true) (badges (db w)).

Definition unlocked_before (w : World) (uid : string) : gset string :=
  list_to_set (ul_badge_id <$> filter (fun r => ul_user_id r = uid) (badge_unlocks (db w))).

(** The key the identity badges are sorted by. *)
Definition order_key (badge : Badge) : Z := Js.or0_opt (progression_order badge).

(** The badge belongs to the identity progression: it is of the
    identity layer and its progression flag is set. *)
Definition identity_tier (badge : Badge) : Prop :=
  layer badge = "identity" /\ is_progression badge = true.

(** The badge is in the [badges] table; it is there and active. *)
Definition in_catalog (w : World) (badge : Badge) : Prop :=
  exists r, r ∈ badges (db w) /\ badge_of r = badge.

Definition in_active_catalog (w : World) (badge : Badge) : Prop :=
  exists r, r ∈ badges (db w) /\ is_active r = true /\ badge_of r = badge.

(** [badge_unlocks] has a row of user [uid] for the badge. *)
Definition has_unlock_row (w : World) (uid : string) (badge : Badge) : Prop :=
  exists row,
    row ∈ badge_unlocks (db w) /\ ul_user_id row = uid /\ ul_badge_id row = id badge.

(** The badge is in the union the current identity badge is chosen
    from: its id is in the unlock set the user had in [w], before the
    call, or its slug is among the badges unlocked during the call. *)
Definition in_unlock_union (w : World) (uid : string) (newUnlocks : list string)
    (badge : Badge) : Prop :=
  has_unlock_row w uid badge \/ slug badge ∈ newUnlocks.

(** Highest tier wins: [current] is the slug of a candidate of the
    identity progression that the user holds, no held candidate of the
    progression having a higher order; or it is null and the user holds
    no candidate of the progression. *)
Definition highest_tier (candidate held : Badge -> Prop) (current : option string) : Prop :=
  match current with
  | Some s =>
      exists badge,
        candidate badge /\ identity_tier badge /\ held badge /\ slug badge = s /\
        forall other,
          candidate other -> identity_tier other -> held other ->
          order_key other <= order_key badge
  | None =>
      forall badge, candidate badge -> identity_tier badge -> ~ held badge
  end.

(** The claim that the persisted identity badge is the highest tier of
    the whole unlock union, whatever the state of the badge in the
    catalog: after every request the datastore answers, the badge stored
    in the user's row is the highest tier among all the badges of the
    table that are in the union. *)
Definition identity_badge_highest_of_union : Prop :=
  forall env req b uid wallet w,
    accepted req b uid wallet ->
    progress_calls_succeed env ->
    badge_calls_succeed env ->
    update_score_error env = false ->
    exists payload w' row,
      handler env req w = (Ok payload, w') /\
      user_badge_progress (db w') !! uid = Some row /\
      highest_tier (in_catalog w) (in_unlock_union w uid (newUnlocks payload))
        (current_identity_badge row).

(** The badge is not yet unlocked, its criteria hold and the datastore
    accepts its unlock row. *)
Definition unlocks_badge (env : Env) (unlockedBadgeIds : gset string)
    (progress : UserProgress) (badge : Badge) : bool :=
  negb (bool_decide (id badge ∈ unlockedBadgeIds))
  && checkBadgeCriteria (now_at env (id badge)) badge progress
  && negb (insert_unlock_error env (id badge)).

(** The world with unlock rows and console lines appended. *)
Definition unlocked_world (rows : list UnlockRow) (lines : list string) (w : World) : World :=
  {| db := {| user_badge_progress := user_badge_progress (db w);
              badges := badges (db w);
              badge_unlocks := badge_unlocks (db w) ++ rows |};
     console := console w ++ lines |}.

(** The world after the last write of the handler, whose error, if
    any, the handler does not look at. *)
Definition score_world (env : Env) (uid : string) (score : Q) (current : option string)
    (w : World) : World :=
  if update_score_error env then w
  else with_progress (alter (score_patch score current) uid (user_badge_progress (db w))) w.

(** The badges a request unlocks, when the datastore answers its
    queries: those of the catalog that [unlocks_badge] selects for the
    progress the event leaves. *)
Definition unlocked_by (env : Env) (b : Body) (uid wallet : string) (w : World) : list Badge :=
  List.filter
    (unlocks_badge env (unlocked_before w uid)
       (progress_after env b (loaded_progress w uid wallet)))
    (active_catalog w).

(** Every row of the progress table holds counts. *)
Definition rows_nonneg (w : World) : Prop :=
  forall u row, user_badge_progress (db w) !! u = Some row -> counters_nonneg row.

(** The claim that a failed insertion is logged: whenever the insertion
    of an unlock row fails for a badge of the catalog that is not yet
    unlocked and whose criteria hold, the request leaves a new console
    line that is neither its processing line nor the line of a successful
    unlock. *)
Definition insertion_failures_logged : Prop :=
  forall env req b uid wallet w badge,
    accepted req b uid wallet ->
    progress_calls_succeed env ->
    badge_calls_succeed env ->
    badge ∈ active_catalog w ->
    id badge ∉ unlocked_before w uid ->
    checkBadgeCriteria (now_at env (id badge)) badge
      (progress_after env b (loaded_progress w uid wallet)) = true ->
    insert_unlock_error env (id badge) = true ->
    exists line,
      line ∈ console (handler env req w).2 /\
      ~ line ∈ console w /\
      line <> processing_line b wallet /\
      forall unlocked, line <> unlocked_line unlocked wallet.

(** The user [uid] has a row and it satisfies [F]. *)
Definition row_satisfies (uid : string) (F : UserProgress -> Prop) (w : World) : Prop :=
  exists row, user_badge_progress (db w) !! uid = Some row /\ F row.

(** The streak rule as the specification words it. *)
Definition spec_streak (today yesterday : string) (lastActiveDate : option string)
    (consecutiveDays : Z) : Z :=
  if decide (lastActiveDate = Some today) then consecutiveDays
  else if decide (lastActiveDate = Some yesterday) then consecutiveDays + 1
  else 1.

(** The voice thresholds as the specification words them. *)
Definition spec_voice_state (shares engagement : Z) : Z :=
  if decide (10 <= shares /\ 100 <= engagement) then 3
  else if decide (5 <= shares) then 2
  else if decide (1 <= shares) then 1
  else 0.

(** ** Sample data *)

Module Sample.

Definition no_criteria : BadgeCriteria :=
  {| min_transactions := None; min_consecutive_days := None;
     min_protocols := None; verified_on_chain := None;
     first_24h_launch := None; mainnet_first_24h := None;
     protocol := None; within_days := None;
     state_1 := None; state_2 := None; state_3 := None |}.

(** The seeded event badge [genesis-og], with a window of 24 hours
    from instant 1000. *)
Definition genesis_og : Badge :=
  {| id := "b-genesis"; slug := "genesis-og"; name := "Genesis Member";
     layer := "event"; rarity := "legendary";
     criteria :=
       {| min_transactions := None; min_consecutive_days := None;
          min_protocols := None; verified_on_chain := None;
          first_24h_launch := Some true; mainnet_first_24h := None;
          protocol := None; within_days := None;
          state_1 := None; state_2 := None; state_3 := None |};
     is_progression := false; progression_order := None;
     event_window_start := Some 1000;
     event_window_end := Some 86401000 |}.

Definition fresh : UserProgress := new_progress "u1" "0xabc".

(** A user well into the programme. *)
Definition veteran : UserProgress :=
  {| user_id := "u1"; wallet_address := "0xabc";
     total_transactions := 120; unique_protocols := 3;
     protocols_interacted := ["arcswap"; "arclend"; "arcstake"];
     consecutive_days := 31; last_active_date := Some "2026-01-01";
     max_consecutive_days := 40;
     social_shares := 4; total_engagement := 60; voice_state := 1;
     intent_score := 0%Q; current_identity_badge := None |}.

Definition veteran_more_shares : UserProgress :=
  {| user_id := "u1"; wallet_address := "0xabc";
     total_transactions := 120; unique_protocols := 3;
     protocols_interacted := ["arcswap"; "arclend"; "arcstake"];
     consecutive_days := 31; last_active_date := Some "2026-01-01";
     max_consecutive_days := 40;
     social_shares := 9; total_engagement := 60; voice_state := 1;
     intent_score := 0%Q; current_identity_badge := None |}.

(** A row whose [social_shares] has been edited to a negative number
    (the column is a plain [INTEGER] that the owner of the row may
    update). *)
Definition edited : UserProgress :=
  {| user_id := "u1"; wallet_address := "0xabc";
     total_transactions := 0; unique_protocols := 0;
     protocols_interacted := [];
     consecutive_days := 0; last_active_date := None;
     max_consecutive_days := 0;
     social_shares := -20; total_engagement := 0; voice_state := 0;
     intent_score := 0%Q; current_identity_badge := None |}.

(** The first two tiers of the seeded identity progression. *)
Definition newcomer : Badge :=
  {| id := "b-newcomer"; slug := "newcomer"; name := "Newcomer";
     layer := "identity"; rarity := "common";
     criteria :=
       {| min_transactions := Some 1; min_consecutive_days := None;
          min_protocols := None; verified_on_chain := None;
          first_24h_launch := None; mainnet_first_24h := None;
          protocol := None; within_days := None;
          state_1 := None; state_2 := None; state_3 := None |};
     is_progression := true; progression_order := Some 1;
     event_window_start := None; event_window_end := None |}.

Definition active : Badge :=
  {| id := "b-active"; slug := "active"; name := "Active";
     layer := "identity"; rarity := "rare";
     criteria :=
       {| min_transactions := None; min_consecutive_days := Some 7;
          min_protocols := Some 3; verified_on_chain := None;
          first_24h_launch := None; mainnet_first_24h := None;
          protocol := None; within_days := None;
          state_1 := None; state_2 := None; state_3 := None |};
     is_progression := true; progression_order := Some 2;
     event_window_start := None; event_window_end := None |}.

Definition catalog : list BadgeRow :=
  [ {| badge_of := newcomer; is_active := true |};
    {| badge_of := active; is_active := true |};
    {| badge_of := genesis_og; is_active := true |} ].

(** The veteran has a row and holds [newcomer] already. *)
Definition world : World :=
  {| db := {| user_badge_progress := {[ "u1" := veteran ]};
              badges := catalog;
              badge_unlocks :=
                [ {| ul_user_id := "u1"; ul_wallet_address := "0xabc";
                     ul_badge_id := "b-newcomer";
                     trigger_event := "transaction";
                     trigger_tx_hash := None |} ] |};
     console := [] |}.

(** The veteran holds both tiers, and the higher one, [active], has
    been deactivated in the catalog since. *)
Definition retired_tier_world : World :=
  {| db := {| user_badge_progress := {[ "u1" := veteran ]};
              badges :=
                [ {| badge_of := newcomer; is_active := true |};
                  {| badge_of := active; is_active := false |};
                  {| badge_of := genesis_og; is_active := true |} ];
              badge_unlocks :=
                [ {| ul_user_id := "u1"; ul_wallet_address := "0xabc";
                     ul_badge_id := "b-newcomer";
                     trigger_event := "transaction";
                     trigger_tx_hash := None |};
                  {| ul_user_id := "u1"; ul_wallet_address := "0xabc";
                     ul_badge_id := "b-active";
                     trigger_event := "transaction";
                     trigger_tx_hash := None |} ] |};
     console := [] |}.

(** A datastore without any row for the user. *)
Definition empty_world : World :=
  {| db := {| user_badge_progress := ∅; badges := catalog; badge_unlocks := [] |};
     console := [] |}.

(** The day after the veteran's last activity, long after the genesis
    window; the datastore answers every call. *)
Definition env : Env :=
  {| today := "2026-01-02"; yesterdayStr := "2026-01-01";
     now_at := fun _ => 90000000;
     select_progress_error := false; create_progress_error := false;
     update_progress_error := false;
     select_badges_error := false; select_unlocks_error := false;
     insert_unlock_error := fun _ => false;
     update_score_error := false |}.

(** The same day, with every insertion of an unlock row refused. *)
Definition env_insert_refused : Env :=
  {| today := "2026-01-02"; yesterdayStr := "2026-01-01";
     now_at := fun _ => 90000000;
     select_progress_error := false; create_progress_error := false;
     update_progress_error := false;
     select_badges_error := false; select_unlocks_error := false;
     insert_unlock_error := fun _ => true;
     update_score_error := false |}.

Definition transaction_body : Body :=
  {| action := "transaction"; userId := Some "u1"; walletAddress := Some "0xabc";
     eventData := Some {| ev_protocol := Some "arcflow"; ev_txHash := Some "0xf00";
                          ev_engagement := None |} |}.

Definition share_body : Body :=
  {| action := "social_share"; userId := Some "u1"; walletAddress := Some "0xabc";
     eventData := Some {| ev_protocol := None; ev_txHash := None;
                          ev_engagement := Some 50 |} |}.

Definition transaction_request : Request :=
  {| method := "POST"; body := Some transaction_body |}.

Definition share_request : Request :=
  {| method := "POST"; body := Some share_body |}.

End Sample.

(** ** Vocabulary of the further properties *)

(** The user a request is made for: the [userId] of its body. *)
Definition request_user (req : Request) : string :=
  default "" (body req ≫= userId).

(** What a request for user [uid] may change of a world [w0]: it leaves
    the catalog and the progress rows of the other users as they are,
    and only appends unlock rows of [uid] and console lines. *)
Definition footprint (uid : string) (w0 w : World) : Prop :=
  badges (db w) = badges (db w0) /\
  (forall u, u <> uid ->
     user_badge_progress (db w) !! u = user_badge_progress (db w0) !! u) /\
  (exists added,
     badge_unlocks (db w) = badge_unlocks (db w0) ++ added /\
     Forall (fun r => ul_user_id r = uid) added) /\
  (exists lines, console w = console w0 ++ lines).

(** The pair [UNIQUE (user_id, badge_id)] constrains. *)
Definition unlock_key (r : UnlockRow) : string * string :=
  (ul_user_id r, ul_badge_id r).

Definition unlocks_unique (w : World) : Prop :=
  NoDup (unlock_key <$> badge_unlocks (db w)).

(** Every row of the progress table satisfies [P]. *)
Definition rows_all (P : UserProgress -> Prop) (w : World) : Prop :=
  forall u row, user_badge_progress (db w) !! u = Some row -> P row.

(** The action is one of the two the [switch] handles. *)
Definition handled (b : Body) : bool :=
  String.eqb (action b) "transaction" || String.eqb (action b) "social_share".

(** The datastore answers every call whose error the handler looks at:
    the progress lookup, the creation of a missing row, the update of a
    handled action and the two queries of the badge evaluation. *)
Definition datastore_answers (env : Env) (b : Body) (uid : string) (w : World) : bool :=
  negb (select_progress_error env)
  && (bool_decide (is_Some (user_badge_progress (db w) !! uid))
      || negb (create_progress_error env))
  && (negb (handled b) || negb (update_progress_error env))
  && negb (select_badges_error env)
  && negb (select_unlocks_error env).

(** The row with the columns [intent_score] and
    [current_identity_badge] replaced, every other column as it is. *)
Definition with_score (score : Q) (current : option string) (row : UserProgress) : UserProgress :=
  {| user_id := user_id row;
     wallet_address := wallet_address row;
     total_transactions := total_transactions row;
     unique_protocols := unique_protocols row;
     protocols_interacted := protocols_interacted row;
     consecutive_days := consecutive_days row;
     last_active_date := last_active_date row;
     max_consecutive_days := max_consecutive_days row;
     social_shares := social_shares row;
     total_engagement := total_engagement row;
     voice_state := voice_state row;
     intent_score := score;
     current_identity_badge := current |}.

(** [stored] is [x] rounded to two decimals: a whole number of
    hundredths, at most 0.005 away from [x]. *)
Definition two_decimals_of (x stored : Q) : Prop :=
  (exists n : Z, stored == n # 100)%Q /\
  (x - (1 # 200) <= stored)%Q /\ (stored <= x + (1 # 200))%Q.

(** [x] is a whole number of 150ths. *)
Definition in_150ths (x : Q) : Prop := exists n : Z, (x == n # 150)%Q.

(** The badge is not yet unlocked and its criteria hold. *)
Definition eligible (env : Env) (unlockedBadgeIds : gset string)
    (progress : UserProgress) (badge : Badge) : bool :=
  negb (bool_decide (id badge ∈ unlockedBadgeIds))
  && checkBadgeCriteria (now_at env (id badge)) badge progress.

(** Coherence of a progress row: what the service keeps true of the
    rows it writes. *)
Definition streak_below_max (row : UserProgress) : Prop :=
  consecutive_days row <= max_consecutive_days row.

Definition protocols_coherent (row : UserProgress) : Prop :=
  unique_protocols row = Z.of_nat (length (protocols_interacted row)) /\
  NoDup (protocols_interacted row).

Definition bounded_by_transactions (row : UserProgress) : Prop :=
  0 <= total_transactions row /\
  consecutive_days row <= total_transactions row /\
  Z.of_nat (length (protocols_interacted row)) <= total_transactions row /\
  (total_transactions row = 0 -> last_active_date row = None) /\
  (0 < total_transactions row -> 1 <= consecutive_days row).

Definition voice_coherent (row : UserProgress) : Prop :=
  voice_state row = getVoiceState row.

(** What holds of a milestone the profile page shows: it is for a
    badge of the catalog that is not unlocked, its target is positive,
    its percentage is at most 100, is 100 exactly when the target is
    reached, and is not negative unless the counter is. *)
Definition milestone_ok (badges : list Badge) (unlocks : list Client.BadgeUnlock)
    (e : Client.BadgeProgress) : Prop :=
  Client.progress_badge e ∈ badges /\
  ~ id (Client.progress_badge e) ∈ Client.unlocked_ids unlocks /\
  0 < Client.targetValue e /\
  (Client.percentage e <= 100)%Q /\
  ((Client.percentage e == 100)%Q <-> Client.targetValue e <= Client.currentValue e) /\
  (0 <= Client.currentValue e -> (0 <= Client.percentage e)%Q).

(** The milestone reads one of the three minimums of its badge: its
    target is the value of the key and its current value the counter the
    service compares with that key. *)
Definition measures (progress : UserProgress) (e : Client.BadgeProgress) : Prop :=
  (min_transactions (criteria (Client.progress_badge e)) = Some (Client.targetValue e) /\
   Client.currentValue e = total_transactions progress) \/
  (min_consecutive_days (criteria (Client.progress_badge e)) = Some (Client.targetValue e) /\
   Client.currentValue e = consecutive_days progress) \/
  (min_protocols (criteria (Client.progress_badge e)) = Some (Client.targetValue e) /\
   Client.currentValue e = unique_protocols progress).

(** The service and the profile name the same identity badge: a badge
    of the catalog whose slug is the one the service gives and whose id
    is that of the unlock the profile shows; or neither names one. *)
Definition name_same_badge (badges : list Badge) (service : option string)
    (profile : option Client.BadgeUnlock) : Prop :=
  match service, profile with
  | Some s, Some u => exists b, b ∈ badges /\ slug b = s /\ id b = Client.badgeId u
  | None, None => True
  | _, _ => False
  end.

(** The identity unlock of the profile: an unlock of the list for an
    identity-layer badge of the catalog, no unlocked identity-layer badge
    having a higher order; or none, when no identity-layer badge is
    unlocked. *)
Definition profile_identity_highest (badges : list Badge)
    (unlocks : list Client.BadgeUnlock) (shown : option Client.BadgeUnlock) : Prop :=
  match shown with
  | Some u =>
      u ∈ unlocks /\
      exists b,
        b ∈ badges /\ layer b = "identity" /\ Client.badgeId u = id b /\
        forall other,
          other ∈ badges -> layer other = "identity" ->
          id other ∈ Client.unlocked_ids unlocks ->
          order_key other <= order_key b
  | None =>
      forall b, b ∈ badges -> layer b = "identity" ->
                id b ∉ Client.unlocked_ids unlocks
  end.

(** ** Further sample data *)

Module SampleMore.

(** A body without a user id. *)
Definition anonymous_body : Body :=
{| action := "transaction"; userId := None; walletAddress := Some "0xabc";
   eventData := None |}.

Definition anonymous_request : Request :=
{| method := "POST"; body := Some anonymous_body |}.

(** An action the [switch] does not handle. *)
Definition daily_check_body : Body :=
{| action := "daily_check"; userId := Some "u1"; walletAddress := Some "0xabc";
   eventData := None |}.

Definition daily_check_request : Request :=
{| method := "POST"; body := Some daily_check_body |}.

(** What the hooks receive for the veteran: the [newcomer] unlock,
  joined with its badge. *)
Definition newcomer_unlock : Client.BadgeUnlock :=
{| Client.unlock_id := "ul-1"; Client.badgeId := "b-newcomer";
   Client.badge := Some Sample.newcomer;
   Client.unlockedAt := "2025-12-01T10:00:00Z";
   Client.triggerTxHash := None; Client.triggerEvent := Some "transaction";
   Client.isDisplayed := true; Client.displayOrder := None |}.

Definition client_badges : list Badge :=
[Sample.newcomer; Sample.active; Sample.genesis_og].

(** The catalog as [useBadges] orders it, by layer. *)
Definition client_badges_by_layer : list Badge :=
[Sample.genesis_og; Sample.newcomer; Sample.active].

(** The veteran's milestone for [newcomer], when the client knows of no
  unlock. *)
Definition newcomer_milestone : Client.BadgeProgress :=
{| Client.progress_badge := Sample.newcomer;
   Client.currentValue := 120;
   Client.targetValue := 1;
   Client.percentage := Qmin (inject_Z 120 / inject_Z 1 * 100) 100;
   Client.description := "120/1 transactions" |}.

(** A nonce table with two expired rows at instant 1000, and the
  service's own cleanup request. *)
Definition nonce_world : Cleanup.World :=
{| Cleanup.siwe_nonces :=
     [ {| Cleanup.nonce := "n1"; Cleanup.expires_at := 500 |};
       {| Cleanup.nonce := "n2"; Cleanup.expires_at := 1500 |};
       {| Cleanup.nonce := "n3"; Cleanup.expires_at := 999 |} ];
   Cleanup.console := [] |}.

Definition cleanup_env : Cleanup.Env :=
{| Cleanup.serviceKey := "service-key"; Cleanup.now := 1000;
   Cleanup.nowIso := "1970-01-01T00:00:01.000Z";
   Cleanup.delete_error := false; Cleanup.count_error := false |}.

Definition cleanup_request : Cleanup.Request :=
{| Cleanup.method := "POST";
   Cleanup.authorization := Some "Bearer service-key" |}.

End SampleMore.

(** * Reasoning about the handler's effects *)

(** A triple for total correctness: run from a world satisfying [P], the
    computation either returns a value and a world satisfying [Q], or
    throws in a world satisfying [E]. *)
Definition triple {A : Type} (P : World -> Prop) (m : Eff A)
    (Q : A -> World -> Prop) (E : World -> Prop) : Prop :=
  forall w, P w ->
    match m w with
    | (Returned a, w') => Q a w'
    | (Thrown, w') => E w'
    end.

(** An invariant of the world that every step of a computation keeps,
    whether it returns or throws. *)
Definition keeps {A : Type} (I : World -> Prop) (m : Eff A) : Prop :=
  triple I m (fun _ => I) I.

(** * Facts about JavaScript truthiness *)

Lemma or0_id x : Js.or0 x = x.
Proof. unfold Js.or0. destruct (Z.eqb_spec x 0); congruence. Qed.

Lemma set_and_above_absent_if_zero k counter :
  Js.set_and_above (absent_if_zero k) counter = Js.set_and_above k counter.
Proof. destruct k as [[| |]|]; reflexivity. Qed.

Lemma truthy_bool_absent_if_false k :
  Js.truthy_bool (absent_if_false k) = Js.truthy_bool k.
Proof. destruct k as [[|]|]; reflexivity. Qed.

(** * checkBadgeCriteria *)

Lemma outside_window_with_criteria now c badge :
  outside_window now (with_criteria c badge) = outside_window now badge.
Proof. reflexivity. Qed.

Lemma window_check_passes_inside now badge :
  window_check_passes now badge -> outside_window now badge = false.
Proof.
  unfold window_check_passes, outside_window.
  destruct (event_window_start badge) as [start|], (event_window_end badge) as [end_|];
    try reflexivity.
  intros [Hs He]. rewrite Z.gtb_ltb. apply orb_false_iff. split; apply Z.ltb_ge; lia.
Qed.

Lemma outside_window_fails now badge progress :
  outside_window now badge = true -> checkBadgeCriteria now badge progress = false.
Proof.
  intros H. unfold checkBadgeCriteria. cbv zeta. rewrite H.
  repeat match goal with |- context [if ?c then _ else _] => destruct c end; reflexivity.
Qed.

(** The verdict only reads the four evaluated keys and the window: two
    badges that agree on them get the same verdict, whatever their other
    keys say. *)
Lemma unevaluated_keys_ignored now badge badge' progress :
  min_transactions (criteria badge) = min_transactions (criteria badge') ->
  min_consecutive_days (criteria badge) = min_consecutive_days (criteria badge') ->
  min_protocols (criteria badge) = min_protocols (criteria badge') ->
  verified_on_chain (criteria badge) = verified_on_chain (criteria badge') ->
  event_window_start badge = event_window_start badge' ->
  event_window_end badge = event_window_end badge' ->
  checkBadgeCriteria now badge progress = checkBadgeCriteria now badge' progress.
Proof.
  intros Ht Hd Hp Hv Hs He. unfold checkBadgeCriteria, outside_window. cbv zeta.
  now rewrite Ht, Hd, Hp, Hv, Hs, He.
Qed.

(** C1: a badge whose criteria hold none of the keys
    [min_transactions], [min_consecutive_days], [min_protocols] and
    [verified_on_chain] (whatever [first_24h_launch],
    [mainnet_first_24h], [protocol], [within_days] and
    [state_1]/[state_2]/[state_3] say) meets its criteria for every
    progress state as soon as the event-window check, if the badge has a
    window, passes. *)
Theorem unevaluated_keys_unlock (now : Z) (badge : Badge) (progress : UserProgress) :
  min_transactions (criteria badge) = None ->
  min_consecutive_days (criteria badge) = None ->
  min_protocols (criteria badge) = None ->
  verified_on_chain (criteria badge) = None ->
  window_check_passes now badge ->
  checkBadgeCriteria now badge progress = true.
Proof.
  intros Ht Hd Hp Hv Hw. unfold checkBadgeCriteria. cbv zeta.
  rewrite Ht, Hd, Hp, Hv. simpl.
  now rewrite (window_check_passes_inside _ _ Hw).
Qed.

Lemma unevaluated_keys_unlock_witness :
  checkBadgeCriteria 5000 Sample.genesis_og Sample.fresh = true.
Proof.
  apply unevaluated_keys_unlock; try reflexivity.
  unfold window_check_passes. simpl. lia.
Defined.

(** C3: a badge with an event window never meets its criteria while the
    current time is before the start or after the end of the window,
    whatever the progress; in particular not once the window is over. *)
Theorem window_closed_blocks (now start end_ : Z) (badge : Badge) (progress : UserProgress) :
  event_window_start badge = Some start ->
  event_window_end badge = Some end_ ->
  now < start \/ end_ < now ->
  checkBadgeCriteria now badge progress = false.
Proof.
  intros Hs He Hout. apply outside_window_fails.
  unfold outside_window. rewrite Hs, He.
  rewrite Z.gtb_ltb. apply orb_true_iff. destruct Hout as [H|H]; [left | right]; apply Z.ltb_lt; lia.
Qed.

Lemma window_closed_blocks_witness :
  checkBadgeCriteria 90000000 Sample.genesis_og Sample.veteran = false.
Proof.
  apply (window_closed_blocks 90000000 1000 86401000); [reflexivity | reflexivity | lia].
Defined.

(** C10: a criteria key present with value 0 ([min_transactions],
    [min_consecutive_days], [min_protocols]) or with value false
    ([verified_on_chain]) is treated as an absent key: taking these keys
    out of the criteria changes the verdict for no badge, no progress
    and no instant. *)
Theorem falsy_keys_are_absent (now : Z) (badge : Badge) (progress : UserProgress) :
  checkBadgeCriteria now badge progress
  = checkBadgeCriteria now (with_criteria (drop_falsy_keys (criteria badge)) badge) progress.
Proof.
  unfold checkBadgeCriteria. cbv zeta.
  rewrite outside_window_with_criteria. simpl.
  now rewrite !set_and_above_absent_if_zero, truthy_bool_absent_if_false.
Qed.

(** * calculateIntentScore *)

Section Ratio.

Variable d : positive.

Lemma ratio_mono (a b : Z) :
  a <= b -> (inject_Z a / inject_Z (Zpos d) <= inject_Z b / inject_Z (Zpos d))%Q.
Proof. intros H. unfold Qle, Qdiv, Qmult, Qinv, inject_Z. simpl. nia. Qed.

Lemma ratio_nonneg (a : Z) :
  0 <= a -> (0 <= inject_Z a / inject_Z (Zpos d))%Q.
Proof. intros H. unfold Qle, Qdiv, Qmult, Qinv, inject_Z. simpl. nia. Qed.

Lemma capped_ratio_mono (a b : Z) (cap : Q) :
  a <= b ->
  (Qmin (inject_Z a / inject_Z (Zpos d)) cap <= Qmin (inject_Z b / inject_Z (Zpos d)) cap)%Q.
Proof. intros H. apply Q.min_le_compat_r, ratio_mono, H. Qed.

Lemma capped_ratio_nonneg (a : Z) (cap : Q) :
  0 <= a -> (0 <= cap)%Q -> (0 <= Qmin (inject_Z a / inject_Z (Zpos d)) cap)%Q.
Proof. intros H Hc. apply Q.min_glb; [apply ratio_nonneg, H | exact Hc]. Qed.

End Ratio.

(** The code's running sum is the sum of the five contributions, capped. *)
Lemma calculateIntentScore_spec progress :
  (calculateIntentScore progress == spec_intent_score progress)%Q.
Proof.
  unfold calculateIntentScore, spec_intent_score, transactions_points,
    protocols_points, consecutive_points, max_consecutive_points, social_points.
  cbv zeta. now rewrite Qplus_0_l.
Qed.

Lemma points_sum_le_10 progress :
  (transactions_points progress + protocols_points progress
   + consecutive_points progress + max_consecutive_points progress
   + social_points progress <= 10)%Q.
Proof.
  pose proof (Q.le_min_r (inject_Z (total_transactions progress) / 50) 2).
  pose proof (Q.le_min_r (inject_Z (unique_protocols progress) / 5) 2).
  pose proof (Q.le_min_r (inject_Z (consecutive_days progress) / 10) 3).
  pose proof (Q.le_min_r (inject_Z (max_consecutive_days progress) / 15) 2).
  pose proof (Q.le_min_r (inject_Z (social_shares progress) / 10) 1).
  unfold transactions_points, protocols_points, consecutive_points,
    max_consecutive_points, social_points. lra.
Qed.

Lemma points_sum_nonneg progress :
  counters_nonneg progress ->
  (0 <= transactions_points progress + protocols_points progress
        + consecutive_points progress + max_consecutive_points progress
        + social_points progress)%Q.
Proof.
  intros (Ht & Hp & Hc & Hm & Hs).
  pose proof (capped_ratio_nonneg 50 _ 2 Ht ltac:(discriminate)).
  pose proof (capped_ratio_nonneg 5 _ 2 Hp ltac:(discriminate)).
  pose proof (capped_ratio_nonneg 10 _ 3 Hc ltac:(discriminate)).
  pose proof (capped_ratio_nonneg 15 _ 2 Hm ltac:(discriminate)).
  pose proof (capped_ratio_nonneg 10 _ 1 Hs ltac:(discriminate)).
  unfold transactions_points, protocols_points, consecutive_points,
    max_consecutive_points, social_points.
  change (inject_Z 50) with (50 : Q) in *. change (inject_Z 5) with (5 : Q) in *.
  change (inject_Z 10) with (10 : Q) in *. change (inject_Z 15) with (15 : Q) in *.
  lra.
Qed.

Lemma counters_le_score (p q : UserProgress) :
  (forall c, counter c p <= counter c q) ->
  (calculateIntentScore p <= calculateIntentScore q)%Q.
Proof.
  intros H. rewrite !calculateIntentScore_spec. unfold spec_intent_score.
  apply Q.min_le_compat_r.
  unfold transactions_points, protocols_points, consecutive_points,
    max_consecutive_points, social_points.
  repeat apply Qplus_le_compat.
  - apply (capped_ratio_mono 50), (H TotalTransactions).
  - apply (capped_ratio_mono 5), (H UniqueProtocols).
  - apply (capped_ratio_mono 10), (H ConsecutiveDays).
  - apply (capped_ratio_mono 15), (H MaxConsecutiveDays).
  - apply (capped_ratio_mono 10), (H SocialShares).
Qed.

Lemma calculateIntentScore_nonneg progress :
  counters_nonneg progress -> (0 <= calculateIntentScore progress)%Q.
Proof.
  intros Hnn. rewrite calculateIntentScore_spec. unfold spec_intent_score.
  apply Q.min_glb; [apply points_sum_nonneg, Hnn | discriminate].
Qed.

(** C4, amended: [calculateIntentScore] is a total function; its value
    is the sum of the five contributions [total_transactions/50] capped
    at 2, [unique_protocols/5] capped at 2, [consecutive_days/10] capped
    at 3, [max_consecutive_days/15] capped at 2 and [social_shares/10]
    capped at 1, the sum capped at 10; it never exceeds 10; it is not
    below 0 when none of the five counters is negative (nothing caps a
    contribution from below). *)
Theorem intent_score_bounded (progress : UserProgress) :
  (calculateIntentScore progress == spec_intent_score progress)%Q /\
  (calculateIntentScore progress <= 10)%Q /\
  (counters_nonneg progress -> (0 <= calculateIntentScore progress)%Q).
Proof.
  split; [apply calculateIntentScore_spec |].
  split.
  - apply Q.le_min_r.
  - apply calculateIntentScore_nonneg.
Qed.

Lemma intent_score_bounded_witness :
  (0 <= calculateIntentScore Sample.veteran <= 10)%Q.
Proof.
  destruct (intent_score_bounded Sample.veteran) as (_ & Hhi & Hlo).
  split; [apply Hlo | exact Hhi].
  unfold counters_nonneg. simpl. lia.
Defined.

(** The claim of C4 that the score of every progress state lies in
    [0, 10] does not hold: the function has no lower bound of its own,
    and a row whose [social_shares] is -20, the other counters being 0,
    scores -2. *)
Lemma negative_counter_negative_score : ~ score_always_in_range.
Proof.
  intros Hrange. destruct (Hrange Sample.edited) as [Hlow _].
  assert (calculateIntentScore Sample.edited == -2)%Q as Hscore
    by (vm_compute; reflexivity).
  lra.
Qed.

(** C5: raising one counter of a progress record and keeping the others
    never lowers the score. *)
Theorem intent_score_monotone (c : Counter) (p q : UserProgress) :
  raises_only c p q ->
  (calculateIntentScore p <= calculateIntentScore q)%Q.
Proof.
  intros [Hc Hothers]. apply counters_le_score. intros c'.
  destruct (decide (c' = c)) as [->|Hne]; [exact Hc |].
  rewrite (Hothers c' Hne). reflexivity.
Qed.

Lemma intent_score_monotone_witness :
  (calculateIntentScore Sample.veteran <= calculateIntentScore Sample.veteran_more_shares)%Q.
Proof.
  apply (intent_score_monotone SocialShares). split.
  - simpl. lia.
  - intros c' Hne. destruct c'; try reflexivity. congruence.
Defined.

(** * The rules of the triple *)

Section TripleRules.

Context {A B : Type}.
Implicit Types (P : World -> Prop) (E : World -> Prop).

Lemma triple_ret P (a : A) (Q : A -> World -> Prop) E :
  (forall w, P w -> Q a w) -> triple P (mret a) Q E.
Proof. intros H w Hw. simpl. auto. Qed.

Lemma triple_throw P (Q : A -> World -> Prop) E :
  (forall w, P w -> E w) -> triple P throw Q E.
Proof. intros H w Hw. simpl. auto. Qed.

Lemma triple_bind P (m : Eff A) (k : A -> Eff B) (R : A -> World -> Prop)
    (Q : B -> World -> Prop) E :
  triple P m R E ->
  (forall a, triple (R a) (k a) Q E) ->
  triple P (m ≫= k) Q E.
Proof.
  intros Hm Hk w Hw. specialize (Hm w Hw).
  unfold mbind, Eff_bind. destruct (m w) as [[a|] w1]; [|exact Hm].
  apply (Hk a w1 Hm).
Qed.

End TripleRules.

Lemma keeps_modify (I : World -> Prop) (f : World -> World) :
  (forall w, I w -> I (f w)) -> keeps I (modify_world f).
Proof. intros H w Hw. simpl. auto. Qed.

Lemma keeps_bind {A B : Type} (I : World -> Prop) (m : Eff A) (k : A -> Eff B) :
  keeps I m -> (forall a, keeps I (k a)) -> keeps I (m ≫= k).
Proof. intros Hm Hk. eapply triple_bind; [exact Hm | exact Hk]. Qed.

Lemma keeps_ret {A : Type} (I : World -> Prop) (a : A) : keeps I (mret a).
Proof. apply triple_ret. auto. Qed.

Lemma keeps_throw {A : Type} (I : World -> Prop) : keeps I (throw (A := A)).
Proof. apply triple_throw. auto. Qed.

Lemma keeps_get (I : World -> Prop) : keeps I get_world.
Proof. intros w Hw. simpl. auto. Qed.

(** * Invariants of the progress table *)

Section TableInvariant.

(** A property of the world that only reads [user_badge_progress] and
    that writing a score and an identity badge to a row keeps. *)
Variable I : World -> Prop.
Hypothesis I_table : forall w w',
  user_badge_progress (db w') = user_badge_progress (db w) -> I w -> I w'.
Hypothesis I_score : forall score current uid w,
  I w -> I (with_progress (alter (score_patch score current) uid (user_badge_progress (db w))) w).

Lemma keeps_console_log line : keeps I (modify_world (console_log line)).
Proof. apply keeps_modify. intros w. now apply I_table. Qed.

Lemma keeps_select_active_badges env : keeps I (select_active_badges env).
Proof.
  apply keeps_bind; [apply keeps_get | intros w].
  destruct (select_badges_error env); [apply keeps_throw | apply keeps_ret].
Qed.

Lemma keeps_select_unlocks env uid : keeps I (select_unlocks env uid).
Proof.
  apply keeps_bind; [apply keeps_get | intros w].
  destruct (select_unlocks_error env); [apply keeps_throw | apply keeps_ret].
Qed.

Lemma keeps_insert_unlock env row : keeps I (insert_unlock env row).
Proof.
  apply keeps_bind; [apply keeps_get | intros w].
  destruct (_ || _); [apply keeps_ret |].
  apply keeps_bind; [| intros _; apply keeps_ret].
  apply keeps_modify. intros w'. now apply I_table.
Qed.

Lemma keeps_unlock_loop env b uid wallet ids progress catalog :
  forall news, keeps I (unlock_loop env b uid wallet ids progress catalog news).
Proof.
  induction catalog as [|badge rest IH]; intros news; simpl.
  - apply keeps_ret.
  - destruct (bool_decide _); [apply IH |].
    destruct (checkBadgeCriteria _ _ _); [| apply IH].
    apply keeps_bind; [apply keeps_insert_unlock |].
    intros [|]; [apply IH |].
    apply keeps_bind; [apply keeps_console_log | intros _; apply IH].
Qed.

Lemma keeps_update_score failed score current uid :
  keeps I (update_progress failed uid (score_patch score current)).
Proof.
  unfold update_progress. destruct failed; [apply keeps_ret |].
  apply keeps_bind; [| intros _; apply keeps_ret].
  apply keeps_modify. intros w. apply I_score.
Qed.

Lemma keeps_evaluate_badges env b uid wallet progress :
  keeps I (evaluate_badges env b uid wallet progress).
Proof.
  unfold evaluate_badges.
  apply keeps_bind; [apply keeps_select_active_badges | intros catalog].
  apply keeps_bind; [apply keeps_select_unlocks | intros unlocks].
  apply keeps_bind; [apply keeps_unlock_loop | intros news].
  apply keeps_bind; [apply keeps_update_score | intros _; apply keeps_ret].
Qed.

(** The whole [try] block keeps [I] as soon as the two writes before
    the badge evaluation do: the creation of a missing row and the
    update of the event, made from the row just loaded. *)
Hypothesis I_create : forall uid wallet w,
  user_badge_progress (db w) !! uid = None ->
  I w -> I (with_progress (<[uid := new_progress uid wallet]> (user_badge_progress (db w))) w).
Hypothesis I_transaction : forall env data uid loaded w,
  user_badge_progress (db w) !! uid = Some loaded ->
  I w ->
  I (with_progress (alter (transaction_patch env data loaded) uid (user_badge_progress (db w))) w).
Hypothesis I_social_share : forall data uid loaded w,
  user_badge_progress (db w) !! uid = Some loaded ->
  I w ->
  I (with_progress (alter (social_share_patch data loaded) uid (user_badge_progress (db w))) w).

Lemma loads_get_or_create env uid wallet :
  triple I (get_or_create_progress env uid wallet)
    (fun loaded w => I w /\ user_badge_progress (db w) !! uid = Some loaded) I.
Proof.
  intros w Hw. unfold get_or_create_progress. simpl. unfold mbind, Eff_bind. simpl.
  destruct (select_progress_error env); simpl; [exact Hw |].
  destruct (user_badge_progress (db w) !! uid) as [row|] eqn:Hrow; simpl; [auto |].
  destruct (create_progress_error env); simpl; [exact Hw |].
  split; [now apply I_create | apply lookup_insert_eq].
Qed.

Lemma keeps_apply_action env b uid loaded :
  triple (fun w => I w /\ user_badge_progress (db w) !! uid = Some loaded)
    (apply_action env b uid loaded) (fun _ => I) I.
Proof.
  intros w [Hw Hrow]. unfold apply_action, update_progress.
  destruct (String.eqb (action b) "transaction").
  - destruct (update_progress_error env); simpl; [exact Hw |].
    now apply I_transaction.
  - destruct (String.eqb (action b) "social_share"); [| exact Hw].
    destruct (update_progress_error env); simpl; [exact Hw |].
    now apply I_social_share.
Qed.

Lemma keeps_process env req : keeps I (process env req).
Proof.
  unfold process. destruct (body req) as [b|]; [| apply keeps_throw].
  destruct (_ || _); [apply keeps_ret |].
  apply keeps_bind; [apply keeps_console_log | intros _].
  eapply triple_bind; [apply loads_get_or_create | intros loaded].
  eapply triple_bind; [apply keeps_apply_action | intros progress].
  apply keeps_evaluate_badges.
Qed.

Lemma keeps_handler env req w : I w -> I (handler env req w).2.
Proof.
  intros Hw. unfold handler. destruct (String.eqb _ _); [exact Hw |].
  pose proof (keeps_process env req w Hw) as H.
  destruct (process env req w) as [[response|] w']; simpl; [exact H |].
  revert H. now apply I_table.
Qed.

End TableInvariant.

(** * The high-water mark of the streak *)

Section MaxConsecutive.

Variables (u : string) (m : Z).

Lemma at_least_alter (patch : UserProgress -> UserProgress) uid w :
  (forall row, user_badge_progress (db w) !! uid = Some row ->
               max_consecutive_days row <= max_consecutive_days (patch row)) ->
  max_streak_at_least u m w ->
  max_streak_at_least u m (with_progress (alter patch uid (user_badge_progress (db w))) w).
Proof.
  intros Hpatch (row & Hrow & Hle). unfold max_streak_at_least. simpl.
  destruct (decide (uid = u)) as [->|Hne].
  - exists (patch row). rewrite lookup_alter_eq, Hrow. split; [reflexivity |].
    specialize (Hpatch row Hrow). lia.
  - exists row. rewrite lookup_alter_ne by exact Hne. auto.
Qed.

Lemma at_least_handler env req w :
  max_streak_at_least u m w -> max_streak_at_least u m (handler env req w).2.
Proof.
  apply keeps_handler.
  - unfold max_streak_at_least. intros w1 w2 ->. auto.
  - intros score current uid w1. apply at_least_alter. intros row _. simpl. lia.
  - intros uid wallet w1 Hnone (row & Hrow & Hle). exists row. split; [| exact Hle].
    simpl. rewrite lookup_insert_ne; [exact Hrow | congruence].
  - intros env' data uid loaded w1 Hloaded. apply at_least_alter.
    intros row Hrow. assert (row = loaded) as -> by congruence.
    simpl. rewrite or0_id. lia.
  - intros data uid loaded w1 _. apply at_least_alter. intros row _. simpl. lia.
Qed.

End MaxConsecutive.

(** C7: whatever the kind of the events and whatever they find
    (datastore errors included), the [max_consecutive_days] of a user's
    row after a sequence of requests is at least what it was before the
    sequence; a single request is the sequence of length one. *)
Theorem max_consecutive_days_never_decreases
    (events : list (Env * Request)) (w : World) (u : string) (before : UserProgress) :
  user_badge_progress (db w) !! u = Some before ->
  exists after,
    user_badge_progress (db (run_events events w)) !! u = Some after /\
    max_consecutive_days before <= max_consecutive_days after.
Proof.
  intros Hrow.
  assert (max_streak_at_least u (max_consecutive_days before) w) as Hw.
  { exists before. split; [exact Hrow | lia]. }
  clear Hrow. revert w Hw. unfold run_events.
  induction events as [|[env req] events IH]; intros w Hw; simpl.
  - exact Hw.
  - apply IH, at_least_handler, Hw.
Qed.

Lemma max_consecutive_days_never_decreases_witness :
  exists after,
    user_badge_progress
      (db (run_events [(Sample.env, Sample.transaction_request);
                       (Sample.env_insert_refused, Sample.share_request)]
             Sample.world)) !! "u1" = Some after /\
    max_consecutive_days Sample.veteran <= max_consecutive_days after.
Proof.
  apply max_consecutive_days_never_decreases. reflexivity.
Defined.

(** * Running the handler when the datastore answers *)

Lemma bind_returned {A B : Type} (m : Eff A) (k : A -> Eff B) w a w' :
  m w = (Returned a, w') -> (m ≫= k) w = k a w'.
Proof. intros H. unfold mbind, Eff_bind. now rewrite H. Qed.

Lemma falsy_some_nonempty (s : string) : s <> "" -> falsy (Some s) = false.
Proof.
  intros Hs. unfold falsy, Js.truthy_str_opt, Js.truthy_str.
  destruct (String.eqb_spec s ""); [contradiction | reflexivity].
Qed.

Lemma get_or_create_progress_run env uid wallet w :
  select_progress_error env = false ->
  create_progress_error env = false ->
  get_or_create_progress env uid wallet w
  = (Returned (loaded_progress w uid wallet), load_world uid wallet w).
Proof.
  intros Hselect Hcreate.
  unfold get_or_create_progress, loaded_progress, load_world.
  rewrite (bind_returned get_world _ w w w) by reflexivity.
  rewrite Hselect.
  destruct (user_badge_progress (db w) !! uid) as [row|]; [reflexivity |].
  rewrite Hcreate. reflexivity.
Qed.

Lemma load_world_lookup uid wallet w :
  user_badge_progress (db (load_world uid wallet w)) !! uid
  = Some (loaded_progress w uid wallet).
Proof.
  unfold load_world, loaded_progress.
  destruct (user_badge_progress (db w) !! uid) as [row|] eqn:Hrow; simpl.
  - exact Hrow.
  - apply lookup_insert_eq.
Qed.

Lemma apply_action_run env b uid loaded w :
  update_progress_error env = false ->
  apply_action env b uid loaded w
  = (Returned (progress_after env b loaded), action_world env b uid loaded w).
Proof.
  intros Hupdate.
  unfold apply_action, progress_after, action_world, action_patch, update_progress.
  rewrite Hupdate.
  destruct (String.eqb (action b) "transaction"); [reflexivity |].
  destruct (String.eqb (action b) "social_share"); reflexivity.
Qed.

Lemma action_world_lookup env b uid loaded w :
  user_badge_progress (db w) !! uid = Some loaded ->
  user_badge_progress (db (action_world env b uid loaded w)) !! uid
  = Some (action_patch env b loaded loaded).
Proof.
  intros Hrow. unfold action_world, action_patch.
  destruct (String.eqb (action b) "transaction"); simpl.
  { now rewrite lookup_alter_eq, Hrow. }
  destruct (String.eqb (action b) "social_share"); simpl.
  { now rewrite lookup_alter_eq, Hrow. }
  exact Hrow.
Qed.

Section AcceptedRequest.

Variables (env : Env) (req : Request) (b : Body) (uid wallet : string) (w : World).
Hypothesis Hreq : accepted req b uid wallet.
Hypothesis Hcalls : progress_calls_succeed env.

Lemma process_run :
  process env req w
  = evaluate_badges env b uid wallet (progress_after env b (loaded_progress w uid wallet)) (evaluation_world env b uid wallet w).
Proof.
  destruct Hreq as (Hmethod & Hbody & Huid & Huid_ne & Hwallet & Hwallet_ne).
  destruct Hcalls as (Hselect & Hcreate & Hupdate).
  unfold process. rewrite Hbody, Huid, Hwallet.
  rewrite !falsy_some_nonempty by assumption. simpl.
  erewrite bind_returned by reflexivity.
  erewrite bind_returned by (apply get_or_create_progress_run; assumption).
  erewrite bind_returned by (apply apply_action_run; assumption).
  reflexivity.
Qed.

Lemma evaluation_world_lookup :
  user_badge_progress (db (evaluation_world env b uid wallet w)) !! uid = Some (action_patch env b (loaded_progress w uid wallet) (loaded_progress w uid wallet)).
Proof.
  unfold evaluation_world. apply action_world_lookup.
  rewrite load_world_lookup. reflexivity.
Qed.

Lemma handler_run :
  handler env req w
  = match evaluate_badges env b uid wallet (progress_after env b (loaded_progress w uid wallet)) (evaluation_world env b uid wallet w) with
    | (Returned response, w') => (response, w')
    | (Thrown, w') =>
        (InternalServerError "Internal server error",
         console_log "[badge-service] Error:" w')
    end.
Proof.
  unfold handler. destruct Hreq as (-> & _). now rewrite process_run.
Qed.

(** A property of the row that the final write of the score keeps. *)
Variable F : UserProgress -> Prop.
Hypothesis F_score : forall score current row, F row -> F (score_patch score current row).

Lemma row_satisfies_score score current uid' w' :
  row_satisfies uid F w' ->
  row_satisfies uid F
    (with_progress (alter (score_patch score current) uid' (user_badge_progress (db w'))) w').
Proof.
  intros (row & Hrow & HF). unfold row_satisfies. simpl.
  destruct (decide (uid' = uid)) as [->|Hne].
  - exists (score_patch score current row). rewrite lookup_alter_eq, Hrow. auto.
  - exists row. rewrite lookup_alter_ne by exact Hne. auto.
Qed.

Lemma event_persisted :
  F (action_patch env b (loaded_progress w uid wallet) (loaded_progress w uid wallet)) ->
  row_satisfies uid F (handler env req w).2.
Proof.
  intros HF. rewrite handler_run.
  assert (row_satisfies uid F (evaluation_world env b uid wallet w)) as Hin.
  { eexists. split; [apply evaluation_world_lookup | exact HF]. }
  pose proof (keeps_evaluate_badges (row_satisfies uid F)) as Htail.
  specialize (Htail ltac:(unfold row_satisfies; intros w1 w2 ->; auto)).
  specialize (Htail ltac:(intros; now apply row_satisfies_score)).
  specialize (Htail env b uid wallet (progress_after env b (loaded_progress w uid wallet)) (evaluation_world env b uid wallet w) Hin).
  destruct (evaluate_badges _ _ _ _ _ _) as [[response|] w']; simpl; exact Htail.
Qed.

End AcceptedRequest.

(** * The streak and the voice state *)

Lemma next_consecutive_days_spec today yesterday lastActive consecutiveDays :
  next_consecutive_days today yesterday lastActive consecutiveDays
  = spec_streak today yesterday lastActive consecutiveDays.
Proof.
  unfold next_consecutive_days, spec_streak.
  destruct (decide (lastActive = Some today)) as [Ht|Ht].
  - now rewrite (bool_decide_eq_true_2 _ Ht).
  - rewrite (bool_decide_eq_false_2 _ Ht). simpl.
    destruct (decide (lastActive = Some yesterday)) as [Hy|Hy].
    + now rewrite (bool_decide_eq_true_2 _ Hy).
    + now rewrite (bool_decide_eq_false_2 _ Hy).
Qed.

Lemma getVoiceState_spec progress :
  getVoiceState progress
  = spec_voice_state (social_shares progress) (total_engagement progress).
Proof.
  unfold getVoiceState, spec_voice_state.
  repeat case_decide;
    repeat match goal with
           | |- context [?a >=? ?b] => destruct (Z.geb_spec a b)
           end; simpl; try reflexivity; lia.
Qed.

(** C2: a [transaction] request whose progress calls succeed leaves the
    user's row with [consecutive_days] unchanged when the loaded
    [last_active_date] is today, one more when it is yesterday, and 1 in
    every other case (a missing date on a fresh record included), with
    [last_active_date] set to today and [total_transactions] one more. *)
Theorem transaction_updates_streak
    (env : Env) (req : Request) (b : Body) (uid wallet : string) (w : World) :
  accepted req b uid wallet ->
  action b = "transaction" ->
  progress_calls_succeed env ->
  exists row,
    user_badge_progress (db (handler env req w).2) !! uid = Some row /\
    consecutive_days row
    = spec_streak (today env) (yesterdayStr env)
        (last_active_date (loaded_progress w uid wallet))
        (consecutive_days (loaded_progress w uid wallet)) /\
    last_active_date row = Some (today env) /\
    total_transactions row = total_transactions (loaded_progress w uid wallet) + 1.
Proof.
  intros Hreq Haction Hcalls.
  apply (event_persisted env req b uid wallet w Hreq Hcalls
           (fun row =>
              consecutive_days row
              = spec_streak (today env) (yesterdayStr env)
                  (last_active_date (loaded_progress w uid wallet))
                  (consecutive_days (loaded_progress w uid wallet)) /\
              last_active_date row = Some (today env) /\
              total_transactions row = total_transactions (loaded_progress w uid wallet) + 1)).
  - intros score current row H. exact H.
  - unfold action_patch. rewrite Haction. simpl.
    rewrite next_consecutive_days_spec, !or0_id. auto.
Qed.

Lemma transaction_updates_streak_witness :
  exists row,
    user_badge_progress (db (handler Sample.env Sample.transaction_request Sample.world).2)
      !! "u1" = Some row /\
    consecutive_days row = 32 /\
    last_active_date row = Some "2026-01-02" /\
    total_transactions row = 121.
Proof.
  apply (transaction_updates_streak Sample.env Sample.transaction_request
           Sample.transaction_body "u1" "0xabc" Sample.world).
  - repeat split; done.
  - reflexivity.
  - repeat split.
Defined.

(** C8: a [social_share] request whose progress calls succeed leaves the
    user's row with [social_shares] one more, [total_engagement] raised
    by the engagement of the event (by 0 when the event carries none) and
    [voice_state] set from these new totals: 3 for at least 10 shares
    and at least 100 engagement, else 2 for at least 5 shares, else 1 for
    at least 1 share, else 0.  With 4 shares and 60 engagement before and
    an engagement of 50, the row ends with 5 shares, 110 engagement and
    voice state 2. *)
Theorem social_share_updates_voice
    (env : Env) (req : Request) (b : Body) (uid wallet : string) (w : World) :
  accepted req b uid wallet ->
  action b = "social_share" ->
  progress_calls_succeed env ->
  exists row,
    user_badge_progress (db (handler env req w).2) !! uid = Some row /\
    social_shares row = social_shares (loaded_progress w uid wallet) + 1 /\
    total_engagement row
    = total_engagement (loaded_progress w uid wallet)
      + Js.or0_opt (eventData b ≫= ev_engagement) /\
    voice_state row = spec_voice_state (social_shares row) (total_engagement row) /\
    (social_shares (loaded_progress w uid wallet) = 4 ->
     total_engagement (loaded_progress w uid wallet) = 60 ->
     eventData b ≫= ev_engagement = Some 50 ->
     social_shares row = 5 /\ total_engagement row = 110 /\ voice_state row = 2).
Proof.
  intros Hreq Haction Hcalls.
  apply (event_persisted env req b uid wallet w Hreq Hcalls
           (fun row =>
              social_shares row = social_shares (loaded_progress w uid wallet) + 1 /\
              total_engagement row
              = total_engagement (loaded_progress w uid wallet)
                + Js.or0_opt (eventData b ≫= ev_engagement) /\
              voice_state row = spec_voice_state (social_shares row) (total_engagement row) /\
              (social_shares (loaded_progress w uid wallet) = 4 ->
               total_engagement (loaded_progress w uid wallet) = 60 ->
               eventData b ≫= ev_engagement = Some 50 ->
               social_shares row = 5 /\ total_engagement row = 110 /\ voice_state row = 2))).
  - intros score current row H. exact H.
  - unfold action_patch. rewrite Haction. simpl.
    rewrite getVoiceState_spec. simpl. rewrite !or0_id.
    do 3 (split; [reflexivity |]).
    intros H1 H2 H3. rewrite H1, H2, H3. repeat split.
Qed.

Lemma social_share_updates_voice_witness :
  exists row,
    user_badge_progress (db (handler Sample.env Sample.share_request Sample.world).2)
      !! "u1" = Some row /\
    social_shares row = 5 /\ total_engagement row = 110 /\ voice_state row = 2.
Proof.
  destruct (social_share_updates_voice Sample.env Sample.share_request
              Sample.share_body "u1" "0xabc" Sample.world)
    as (row & Hrow & _ & _ & _ & Hscenario).
  - repeat split; done.
  - reflexivity.
  - repeat split.
  - exists row. split; [exact Hrow |]. apply Hscenario; reflexivity.
Defined.

(** * Array.prototype.sort and the first match *)

Section ArraySort.

Context {A : Type} (compare : A -> A -> Z).
Hypothesis compare_total : forall x y, compare x y <= 0 \/ compare y x <= 0.
Hypothesis compare_trans :
  forall x y z, compare x y <= 0 -> compare y z <= 0 -> compare x z <= 0.

Lemma sort_insert_perm x l : sort_insert compare x l ≡ₚ x :: l.
Proof.
  induction l as [|y ys IH]; simpl; [reflexivity |].
  destruct (compare x y <=? 0); [reflexivity |].
  rewrite IH. apply Permutation_swap.
Qed.

Lemma Array_sort_perm l : Array_sort compare l ≡ₚ l.
Proof.
  induction l as [|x l IH]; simpl; [reflexivity |].
  fold (Array_sort compare l). now rewrite sort_insert_perm, IH.
Qed.

Lemma sort_insert_sorted x l :
  StronglySorted (fun a b => compare a b <= 0) l ->
  StronglySorted (fun a b => compare a b <= 0) (sort_insert compare x l).
Proof.
  induction 1 as [|y ys Hsorted IH Hall]; simpl.
  - repeat constructor.
  - destruct (Z.leb_spec (compare x y) 0) as [Hle|Hgt].
    + constructor; [now constructor |].
      constructor; [exact Hle |].
      eapply Forall_impl; [exact Hall |]. intros z Hz. simpl in Hz. eauto.
    + constructor; [exact IH |].
      rewrite sort_insert_perm. constructor; [| exact Hall].
      destruct (compare_total x y); [lia | assumption].
Qed.

Lemma Array_sort_sorted l :
  StronglySorted (fun a b => compare a b <= 0) (Array_sort compare l).
Proof.
  induction l as [|x l IH]; simpl; [constructor |].
  now apply sort_insert_sorted.
Qed.

Lemma find_sorted_first (P : A -> bool) l x :
  StronglySorted (fun a b => compare a b <= 0) l ->
  List.find P l = Some x ->
  forall y, y ∈ l -> P y = true -> compare x y <= 0.
Proof.
  induction 1 as [|a l' Hsorted IH Hall]; simpl; [discriminate |].
  destruct (P a) eqn:Ha.
  - intros [= <-] y Hy _. apply elem_of_cons in Hy as [->|Hy].
    + destruct (compare_total a a); assumption.
    + rewrite Forall_forall in Hall. now apply Hall.
  - intros Hfind y Hy HPy. apply elem_of_cons in Hy as [->|Hy]; [congruence |].
    now apply IH.
Qed.

End ArraySort.

(** * The current identity badge *)

Lemma by_descending_order_key a b :
  by_descending_order a b <= 0 <-> order_key b <= order_key a.
Proof. unfold by_descending_order, order_key. lia. Qed.

Lemma elem_of_identityBadges catalog badge :
  badge ∈ identityBadges catalog
  <-> badge ∈ catalog /\ is_identity_progression badge = true.
Proof.
  unfold identityBadges. rewrite Array_sort_perm.
  rewrite list_elem_of_In, filter_In, <- list_elem_of_In. reflexivity.
Qed.

Lemma is_identity_progression_tier badge :
  is_identity_progression badge = true <-> identity_tier badge.
Proof.
  unfold is_identity_progression, identity_tier.
  rewrite andb_true_iff, String.eqb_eq. reflexivity.
Qed.

(** The first match of the sorted list is a highest tier, for any
    reading [held] of the test of the loop. *)
Lemma find_current_identity_badge_highest catalog ids news (held : Badge -> Prop) :
  (forall badge, badge ∈ catalog -> holds_badge ids news badge = true <-> held badge) ->
  highest_tier (fun badge => badge ∈ catalog) held
    (find_current_identity_badge catalog ids news).
Proof.
  intros Hheld. unfold find_current_identity_badge, highest_tier.
  destruct (List.find _ _) as [badge|] eqn:Hfind; simpl.
  - pose proof (find_some _ _ Hfind) as [Hin Hholds].
    apply list_elem_of_In, elem_of_identityBadges in Hin as [Hin Hid].
    exists badge. split; [exact Hin |].
    split; [now apply is_identity_progression_tier |].
    split; [now apply Hheld |]. split; [reflexivity |].
    intros other Hother Hid' Hholds'.
    apply by_descending_order_key.
    apply (find_sorted_first by_descending_order
             ltac:(intros; unfold by_descending_order; lia)
             (holds_badge ids news) (identityBadges catalog)); try assumption.
    + apply Array_sort_sorted; intros; unfold by_descending_order in *; lia.
    + apply elem_of_identityBadges. split; [exact Hother |].
      now apply is_identity_progression_tier.
    + now apply Hheld.
  - intros badge Hin Hid Hholds.
    assert (holds_badge ids news badge = false) as Hnot.
    { apply (find_none _ _ Hfind). apply list_elem_of_In.
      apply elem_of_identityBadges. split; [exact Hin |].
      now apply is_identity_progression_tier. }
    apply Hheld in Hholds; [congruence | exact Hin].
Qed.

Lemma highest_tier_ext (candidate candidate' held held' : Badge -> Prop) current :
  (forall badge, candidate badge <-> candidate' badge) ->
  (forall badge, candidate badge -> held badge <-> held' badge) ->
  highest_tier candidate held current ->
  highest_tier candidate' held' current.
Proof.
  intros Hc Hh. unfold highest_tier. destruct current as [s|].
  - intros (badge & Hin & Htier & Hheld & Hslug & Hmax).
    exists badge. split; [now apply Hc |]. split; [exact Htier |].
    split; [now apply Hh |]. split; [exact Hslug |].
    intros other Hother Htier' Hheld'. apply Hc in Hother.
    apply Hmax; try assumption. now apply Hh.
  - intros Hnone badge Hin Htier Hheld. apply Hc in Hin.
    apply (Hnone badge Hin Htier). now apply Hh.
Qed.


(** * The unlock loop *)

Lemma insert_unlock_run env row w :
  insert_unlock env row w
  = if insert_unlock_error env (ul_badge_id row)
       || unlock_exists (ul_user_id row) (ul_badge_id row) (badge_unlocks (db w))
    then (Returned true, w)
    else (Returned false, with_unlocks (badge_unlocks (db w) ++ [row]) w).
Proof.
  unfold insert_unlock. rewrite (bind_returned get_world _ w w w) by reflexivity.
  destruct (_ || _); reflexivity.
Qed.

(** The loop runs to the end of the catalog, whatever the insertions
    answer, and leaves the progress table alone. *)
Lemma unlock_loop_returns env b uid wallet ids progress catalog :
  forall news w, exists news' w',
    unlock_loop env b uid wallet ids progress catalog news w = (Returned news', w') /\
    user_badge_progress (db w') = user_badge_progress (db w).
Proof.
  induction catalog as [|badge rest IH]; intros news w; simpl.
  - eauto.
  - destruct (bool_decide _); [apply IH |].
    destruct (checkBadgeCriteria _ _ _); [| apply IH].
    unfold mbind at 1, Eff_bind at 1. rewrite insert_unlock_run.
    destruct (_ || _); [apply IH |].
    unfold mbind at 1, Eff_bind at 1. simpl.
    destruct (IH (news ++ [slug badge])
                (console_log (unlocked_line badge wallet)
                   (with_unlocks (badge_unlocks (db w) ++ [unlock_row b uid wallet badge]) w)))
      as (news' & w' & Hrun & Htable).
    eauto.
Qed.

Lemma unlocked_world_nil w : unlocked_world [] [] w = w.
Proof.
  destruct w as [[table catalog rows] lines]. unfold unlocked_world. simpl.
  now rewrite !app_nil_r.
Qed.

Lemma unlocked_world_cons row rows line lines w :
  unlocked_world rows lines
    (console_log line (with_unlocks (badge_unlocks (db w) ++ [row]) w))
  = unlocked_world (row :: rows) (line :: lines) w.
Proof.
  unfold unlocked_world, console_log, with_unlocks. simpl.
  now rewrite <- !app_assoc.
Qed.

Lemma unlock_exists_app uid bid rows rows' :
  unlock_exists uid bid (rows ++ rows')
  = unlock_exists uid bid rows || unlock_exists uid bid rows'.
Proof. apply existsb_app. Qed.

Lemma unlock_exists_unlocked_before (w : World) uid bid :
  bid ∉ unlocked_before w uid ->
  unlock_exists uid bid (badge_unlocks (db w)) = false.
Proof.
  intros Hnot. destruct (unlock_exists _ _ _) eqn:Hex; [| reflexivity].
  exfalso. apply Hnot. unfold unlock_exists in Hex.
  apply existsb_exists in Hex as (row & Hin & Hrow).
  apply andb_true_iff in Hrow as [Hu Hb].
  apply String.eqb_eq in Hu. apply String.eqb_eq in Hb.
  unfold unlocked_before. apply elem_of_list_to_set, list_elem_of_fmap.
  exists row. split; [congruence |].
  apply list_elem_of_filter. split; [exact Hu | now apply list_elem_of_In].
Qed.

(** With distinct badge ids in the catalog, and no row yet for the
    badges that are not in [ids], the loop unlocks exactly the badges
    [unlocks_badge] selects: one row and one console line for each. *)
Lemma unlock_loop_run env b uid wallet ids progress catalog :
  forall news w,
    NoDup (id <$> catalog) ->
    (forall badge, badge ∈ catalog -> id badge ∉ ids ->
                   unlock_exists uid (id badge) (badge_unlocks (db w)) = false) ->
    unlock_loop env b uid wallet ids progress catalog news w
    = (Returned (news ++ (slug <$> List.filter (unlocks_badge env ids progress) catalog)),
       unlocked_world
         (unlock_row b uid wallet <$> List.filter (unlocks_badge env ids progress) catalog)
         ((fun badge => unlocked_line badge wallet)
            <$> List.filter (unlocks_badge env ids progress) catalog)
         w).
Proof.
  induction catalog as [|badge rest IH]; intros news w Hnodup Hfree.
  - cbn [unlock_loop List.filter fmap list_fmap].
    now rewrite app_nil_r, unlocked_world_nil.
  - rewrite fmap_cons in Hnodup. apply NoDup_cons in Hnodup as [Hfresh Hnodup].
    assert (forall badge', badge' ∈ rest -> id badge' ∉ ids ->
                           unlock_exists uid (id badge') (badge_unlocks (db w)) = false)
      as Hfree'.
    { intros badge' Hin. apply Hfree. now right. }
    cbn [unlock_loop List.filter].
    destruct (bool_decide (id badge ∈ ids)) eqn:Hheld.
    { replace (unlocks_badge env ids progress badge) with false
        by (unfold unlocks_badge; now rewrite Hheld).
      now apply IH. }
    destruct (checkBadgeCriteria (now_at env (id badge)) badge progress) eqn:Hcheck.
    2: { replace (unlocks_badge env ids progress badge) with false
           by (unfold unlocks_badge; now rewrite Hheld, Hcheck).
         now apply IH. }
    unfold mbind at 1, Eff_bind at 1. rewrite insert_unlock_run.
    cbn [unlock_row ul_user_id ul_badge_id].
    assert (id badge ∉ ids) as Hnot by (now apply bool_decide_eq_false in Hheld).
    rewrite (Hfree badge ltac:(left) Hnot).
    rewrite orb_false_r.
    destruct (insert_unlock_error env (id badge)) eqn:Herror.
    { replace (unlocks_badge env ids progress badge) with false
        by (unfold unlocks_badge; now rewrite Hheld, Hcheck, Herror).
      now apply IH. }
    replace (unlocks_badge env ids progress badge) with true
      by (unfold unlocks_badge; now rewrite Hheld, Hcheck, Herror).
    unfold mbind at 1, Eff_bind at 1. cbn [modify_world].
    rewrite IH; [| exact Hnodup |].
    + rewrite !fmap_cons.
      fold (unlock_row b uid wallet badge).
      now rewrite unlocked_world_cons, <- app_assoc.
    + intros badge' Hin Hnot'. cbn [with_unlocks console_log db badge_unlocks].
      rewrite unlock_exists_app, (Hfree' badge' Hin Hnot').
      cbn. rewrite orb_false_r. apply andb_false_iff. right.
      apply String.eqb_neq. intros Heq. apply Hfresh.
      rewrite Heq. apply list_elem_of_fmap. eauto.
Qed.

(** * The badge evaluation of an accepted request *)

Lemma evaluation_world_badges env b uid wallet w :
  badges (db (evaluation_world env b uid wallet w)) = badges (db w).
Proof.
  unfold evaluation_world, action_world, load_world. simpl.
  destruct (_ || _), (user_badge_progress (db w) !! uid); reflexivity.
Qed.

Lemma evaluation_world_unlocks env b uid wallet w :
  badge_unlocks (db (evaluation_world env b uid wallet w)) = badge_unlocks (db w).
Proof.
  unfold evaluation_world, action_world, load_world. simpl.
  destruct (_ || _), (user_badge_progress (db w) !! uid); reflexivity.
Qed.

Lemma evaluation_world_console env b uid wallet w :
  console (evaluation_world env b uid wallet w) = console w ++ [processing_line b wallet].
Proof.
  unfold evaluation_world, action_world, load_world. simpl.
  destruct (_ || _), (user_badge_progress (db w) !! uid); reflexivity.
Qed.

Lemma evaluation_world_catalog env b uid wallet w :
  active_catalog (evaluation_world env b uid wallet w) = active_catalog w.
Proof. unfold active_catalog. now rewrite evaluation_world_badges. Qed.

Lemma evaluation_world_unlocked_before env b uid wallet w :
  unlocked_before (evaluation_world env b uid wallet w) uid = unlocked_before w uid.
Proof. unfold unlocked_before. now rewrite evaluation_world_unlocks. Qed.

Lemma evaluate_badges_run env b uid wallet progress w news w' :
  badge_calls_succeed env ->
  unlock_loop env b uid wallet (unlocked_before w uid) progress (active_catalog w) [] w
  = (Returned news, w') ->
  evaluate_badges env b uid wallet progress w
  = (Returned
       (Ok {| newUnlocks := news;
              intentScore := calculateIntentScore progress;
              currentIdentityBadge :=
                find_current_identity_badge (active_catalog w) (unlocked_before w uid) news;
              progress := {| totalTransactions := total_transactions progress;
                             uniqueProtocols := unique_protocols progress;
                             consecutiveDays := consecutive_days progress |} |}),
     score_world env uid (calculateIntentScore progress)
       (find_current_identity_badge (active_catalog w) (unlocked_before w uid) news) w').
Proof.
  intros [Hbadges Hunlocks] Hloop. unfold evaluate_badges.
  unfold select_active_badges, select_unlocks. rewrite Hbadges, Hunlocks.
  rewrite (bind_returned _ _ w (active_catalog w) w) by reflexivity.
  erewrite (bind_returned _ _ w _ w) by reflexivity.
  erewrite bind_returned by exact Hloop.
  unfold update_progress, score_world.
  destruct (update_score_error env); reflexivity.
Qed.

(** * The current identity badge of an accepted request *)

Lemma elem_of_active_catalog w badge :
  badge ∈ active_catalog w <-> in_active_catalog w badge.
Proof.
  unfold active_catalog, in_active_catalog. rewrite list_elem_of_fmap. split.
  - intros (r & -> & Hr). apply list_elem_of_filter in Hr as [Hactive Hr]. eauto.
  - intros (r & Hr & Hactive & <-). exists r. split; [reflexivity |].
    now apply list_elem_of_filter.
Qed.

Lemma elem_of_unlocked_before w uid badge :
  id badge ∈ unlocked_before w uid <-> has_unlock_row w uid badge.
Proof.
  unfold unlocked_before, has_unlock_row.
  rewrite elem_of_list_to_set, list_elem_of_fmap. split.
  - intros (row & Hid & Hrow). apply list_elem_of_filter in Hrow as [Huser Hrow]. eauto.
  - intros (row & Hrow & Huser & Hid). exists row. split; [now symmetry |].
    now apply list_elem_of_filter.
Qed.

Lemma holds_badge_union w uid news badge :
  holds_badge (unlocked_before w uid) news badge = true
  <-> in_unlock_union w uid news badge.
Proof.
  unfold holds_badge, in_unlock_union.
  rewrite orb_true_iff, !bool_decide_eq_true, elem_of_unlocked_before. reflexivity.
Qed.

Lemma NoDup_fmap_eq {A B : Type} (f : A -> B) (l : list A) x y :
  NoDup (f <$> l) -> x ∈ l -> y ∈ l -> f x = f y -> x = y.
Proof.
  induction l as [|a l IH]; intros Hnodup Hx Hy Heq; [inversion Hx |].
  rewrite fmap_cons in Hnodup. apply NoDup_cons in Hnodup as [Hfresh Hnodup].
  apply elem_of_cons in Hx as [->|Hx]; apply elem_of_cons in Hy as [->|Hy].
  - reflexivity.
  - exfalso. apply Hfresh. rewrite Heq. now apply list_elem_of_fmap_2.
  - exfalso. apply Hfresh. rewrite <- Heq. now apply list_elem_of_fmap_2.
  - now apply IH.
Qed.

Lemma unlocked_by_active env b uid wallet w badge :
  badge ∈ unlocked_by env b uid wallet w -> badge ∈ active_catalog w.
Proof.
  unfold unlocked_by. intros Hin.
  apply list_elem_of_In, filter_In in Hin as [Hin _]. now apply list_elem_of_In.
Qed.

(** With distinct ids and distinct slugs in the catalog, the union the
    handler chooses from is the unlock set the table holds after the
    insertions of the call. *)
Lemma union_is_unlock_set_after env b uid wallet w final badge :
  NoDup (id <$> active_catalog w) ->
  NoDup (slug <$> active_catalog w) ->
  badge_unlocks (db final)
  = badge_unlocks (db w) ++ (unlock_row b uid wallet <$> unlocked_by env b uid wallet w) ->
  badge ∈ active_catalog w ->
  in_unlock_union w uid (slug <$> unlocked_by env b uid wallet w) badge
  <-> has_unlock_row final uid badge.
Proof.
  intros Hids Hslugs Hfinal Hbadge. unfold in_unlock_union, has_unlock_row.
  rewrite Hfinal. split.
  - intros [(row & Hrow & Huser & Hid)|Hnew].
    + exists row. split; [apply elem_of_app; now left | auto].
    + apply list_elem_of_fmap in Hnew as (badge' & Hslug & Hin).
      assert (badge = badge') as <-.
      { apply (NoDup_fmap_eq slug (active_catalog w)); try assumption.
        apply (unlocked_by_active _ _ _ _ _ _ Hin). }
      exists (unlock_row b uid wallet badge). split; [| split; reflexivity].
      apply elem_of_app. right. now apply list_elem_of_fmap_2.
  - intros (row & Hrow & Huser & Hid).
    apply elem_of_app in Hrow as [Hrow|Hrow]; [left; eauto |].
    right. apply list_elem_of_fmap in Hrow as (badge' & -> & Hin).
    assert (badge' = badge) as ->.
    { apply (NoDup_fmap_eq id (active_catalog w)); try assumption.
      apply (unlocked_by_active _ _ _ _ _ _ Hin). }
    now apply list_elem_of_fmap_2.
Qed.

(** C6, amended: a request the datastore answers returns, as
    [currentIdentityBadge], the slug of the identity-layer progression
    badge with the highest [progression_order] (a missing order counting
    as 0) among the active badges of the catalog whose id is in the
    unlock set the user had before the call or whose slug is among the
    unlocks of the call, and null when no active badge of the
    progression is in that union; when the final update succeeds, this
    is the value stored in the user's row; and, the active badges having
    distinct ids and distinct slugs, the union is the set of badges the
    user has an unlock row for once the call is over. *)
Theorem current_identity_badge_is_highest
    (env : Env) (req : Request) (b : Body) (uid wallet : string) (w : World) :
  accepted req b uid wallet ->
  progress_calls_succeed env ->
  badge_calls_succeed env ->
  exists payload w',
    handler env req w = (Ok payload, w') /\
    highest_tier (in_active_catalog w) (in_unlock_union w uid (newUnlocks payload))
      (currentIdentityBadge payload) /\
    (update_score_error env = false ->
     exists row,
       user_badge_progress (db w') !! uid = Some row /\
       current_identity_badge row = currentIdentityBadge payload) /\
    (NoDup (id <$> active_catalog w) ->
     NoDup (slug <$> active_catalog w) ->
     highest_tier (in_active_catalog w) (has_unlock_row w' uid)
       (currentIdentityBadge payload)).
Proof.
  intros Hreq Hprogress Hbadges.
  rewrite (handler_run env req b uid wallet w Hreq Hprogress).
  destruct (unlock_loop_returns env b uid wallet
              (unlocked_before (evaluation_world env b uid wallet w) uid)
              (progress_after env b (loaded_progress w uid wallet))
              (active_catalog (evaluation_world env b uid wallet w)) []
              (evaluation_world env b uid wallet w))
    as (news & w' & Hloop & Htable).
  rewrite (evaluate_badges_run _ _ _ _ _ _ _ _ Hbadges Hloop).
  rewrite evaluation_world_catalog, evaluation_world_unlocked_before in *.
  eexists _, _. split; [reflexivity |]. simpl.
  assert (highest_tier (in_active_catalog w) (in_unlock_union w uid news)
            (find_current_identity_badge (active_catalog w) (unlocked_before w uid) news))
    as Hunion.
  { apply (highest_tier_ext (fun badge => badge ∈ active_catalog w) _
             (in_unlock_union w uid news) _ _).
    - intros badge. apply elem_of_active_catalog.
    - reflexivity.
    - apply find_current_identity_badge_highest.
      intros badge _. apply holds_badge_union. }
  split; [exact Hunion |]. split.
  - intros Hscore. unfold score_world. rewrite Hscore. simpl.
    rewrite lookup_alter_eq, Htable.
    rewrite evaluation_world_lookup.
    simpl. eauto.
  - intros Hids Hslugs.
    rewrite unlock_loop_run in Hloop.
    + injection Hloop as <- <-.
      fold (unlocked_by env b uid wallet w) in *.
      revert Hunion. apply highest_tier_ext; [reflexivity |].
      intros badge Hbadge. apply elem_of_active_catalog in Hbadge.
      apply (union_is_unlock_set_after env b uid wallet w); try assumption.
      unfold score_world.
      destruct (update_score_error env); simpl;
        now rewrite evaluation_world_unlocks.
    + exact Hids.
    + intros badge _. rewrite evaluation_world_unlocks.
      apply unlock_exists_unlocked_before.
Qed.

Lemma current_identity_badge_is_highest_witness :
  exists payload w',
    handler Sample.env Sample.transaction_request Sample.world = (Ok payload, w') /\
    currentIdentityBadge payload = Some "active" /\
    highest_tier (in_active_catalog Sample.world)
      (in_unlock_union Sample.world "u1" (newUnlocks payload))
      (currentIdentityBadge payload) /\
    (exists row,
       user_badge_progress (db w') !! "u1" = Some row /\
       current_identity_badge row = currentIdentityBadge payload) /\
    highest_tier (in_active_catalog Sample.world) (has_unlock_row w' "u1")
      (currentIdentityBadge payload).
Proof.
  destruct (current_identity_badge_is_highest Sample.env Sample.transaction_request
              Sample.transaction_body "u1" "0xabc" Sample.world)
    as (payload & w' & Hrun & Hunion & Hstored & Hafter).
  - repeat split; done.
  - repeat split.
  - split; reflexivity.
  - exists payload, w'. split; [exact Hrun |]. split.
    + assert ((handler Sample.env Sample.transaction_request Sample.world).1 = Ok payload)
        as Hresponse by now rewrite Hrun.
      vm_compute in Hresponse. injection Hresponse as <-. reflexivity.
    + split; [exact Hunion |]. split; [now apply Hstored |].
      apply Hafter.
      * apply (bool_decide_unpack (NoDup (id <$> active_catalog Sample.world))).
        vm_compute. exact I.
      * apply (bool_decide_unpack (NoDup (slug <$> active_catalog Sample.world))).
        vm_compute. exact I.
Defined.

(** The claim of C6 that the persisted identity badge is the highest
    tier of the whole unlock union does not hold when a badge of the
    union is no longer active.  The veteran holds [newcomer] and
    [active], and [active] has been deactivated: the catalog query
    leaves it out, and after a social share the row says [newcomer],
    although the user holds the higher tier [active]. *)
Lemma held_retired_tier_not_current : ~ identity_badge_highest_of_union.
Proof.
  intros Hclaim.
  destruct (Hclaim Sample.env Sample.share_request Sample.share_body "u1" "0xabc"
              Sample.retired_tier_world)
    as (payload & w' & row & Hrun & Hrow & Hhighest).
  - repeat split; done.
  - repeat split.
  - split; reflexivity.
  - reflexivity.
  - vm_compute in Hrun. injection Hrun as <- <-.
    vm_compute in Hrow. injection Hrow as <-.
    cbn [current_identity_badge newUnlocks highest_tier] in Hhighest.
    destruct Hhighest as (badge & (r & Hr & <-) & _ & _ & Hslug & Hmax).
    assert (order_key Sample.active <= order_key (badge_of r)) as Horder.
    { apply Hmax.
      - exists {| badge_of := Sample.active; is_active := false |}.
        split; [| reflexivity]. apply list_elem_of_In. cbn. auto.
      - split; reflexivity.
      - left.
        exists {| ul_user_id := "u1"; ul_wallet_address := "0xabc";
                  ul_badge_id := "b-active"; trigger_event := "transaction";
                  trigger_tx_hash := None |}.
        split; [| split; reflexivity].
        apply list_elem_of_In. cbn. auto. }
    cbn in Hr.
    repeat (apply elem_of_cons in Hr as [->|Hr]);
      try (inversion Hr; fail); try discriminate Hslug.
    vm_compute in Horder. apply Horder. reflexivity.
Qed.

(** C9, amended: a failed insertion of an unlock row is skipped in
    silence.  When the datastore answers the other calls of an accepted
    request and the catalog has distinct ids, the request succeeds
    whatever the insertions answer; [newUnlocks] lists exactly the badges
    of the whole catalog that were not yet unlocked, meet their criteria
    and whose row the datastore accepted; exactly their rows are added to
    [badge_unlocks]; and the console gets the processing line and one
    line for each of them, none for a refused insertion. *)
Theorem unlock_failures_skipped
    (env : Env) (req : Request) (b : Body) (uid wallet : string) (w : World) :
  accepted req b uid wallet ->
  progress_calls_succeed env ->
  badge_calls_succeed env ->
  NoDup (id <$> active_catalog w) ->
  exists payload w',
    handler env req w = (Ok payload, w') /\
    newUnlocks payload = slug <$> unlocked_by env b uid wallet w /\
    badge_unlocks (db w')
    = badge_unlocks (db w) ++ (unlock_row b uid wallet <$> unlocked_by env b uid wallet w) /\
    console w'
    = console w ++ processing_line b wallet
        :: ((fun badge => unlocked_line badge wallet) <$> unlocked_by env b uid wallet w).
Proof.
  intros Hreq Hprogress Hbadges Hnodup.
  rewrite (handler_run env req b uid wallet w Hreq Hprogress).
  erewrite evaluate_badges_run; [| exact Hbadges |].
  2: { apply unlock_loop_run.
       - now rewrite evaluation_world_catalog.
       - intros badge _. apply unlock_exists_unlocked_before. }
  rewrite evaluation_world_catalog, evaluation_world_unlocked_before.
  fold (unlocked_by env b uid wallet w).
  eexists _, _. split; [reflexivity |]. simpl. split; [reflexivity |].
  unfold score_world.
  destruct (update_score_error env); simpl;
    rewrite evaluation_world_unlocks, evaluation_world_console, <- app_assoc; auto.
Qed.

Lemma unlock_failures_skipped_witness :
  exists payload w',
    handler Sample.env_insert_refused Sample.transaction_request Sample.world
    = (Ok payload, w') /\
    newUnlocks payload = [] /\
    badge_unlocks (db w') = badge_unlocks (db Sample.world) /\
    console w' = [processing_line Sample.transaction_body "0xabc"].
Proof.
  destruct (unlock_failures_skipped Sample.env_insert_refused Sample.transaction_request
              Sample.transaction_body "u1" "0xabc" Sample.world)
    as (payload & w' & Hrun & Hnews & Hrows & Hconsole).
  - repeat split; done.
  - repeat split.
  - split; reflexivity.
  - apply (bool_decide_unpack (NoDup (id <$> active_catalog Sample.world))).
    vm_compute. exact I.
  - exists payload, w'. split; [exact Hrun |].
    split; [exact Hnews |]. split; [exact Hrows | exact Hconsole].
Defined.

(** The claim of C9 that a failed insertion is logged does not hold:
    with every insertion refused, the veteran's transaction meets the
    criteria of the badge [active], whose insertion fails, and the
    console ends with the processing line alone. *)
Lemma insertion_failure_not_logged : ~ insertion_failures_logged.
Proof.
  intros Hlogged.
  destruct (Hlogged Sample.env_insert_refused Sample.transaction_request
              Sample.transaction_body "u1" "0xabc" Sample.world Sample.active)
    as (line & Hin & _ & Hline & _).
  - repeat split; done.
  - repeat split.
  - split; reflexivity.
  - apply list_elem_of_In. vm_compute. auto.
  - unfold unlocked_before. rewrite elem_of_list_to_set.
    intros Hheld. apply list_elem_of_In in Hheld. vm_compute in Hheld.
    destruct Hheld as [Heq|[]]. discriminate Heq.
  - vm_compute. reflexivity.
  - reflexivity.
  - assert (console (handler Sample.env_insert_refused Sample.transaction_request
                       Sample.world).2
            = [processing_line Sample.transaction_body "0xabc"]) as Hconsole
      by (vm_compute; reflexivity).
    rewrite Hconsole in Hin. apply list_elem_of_singleton in Hin. contradiction.
Qed.

(** * The counters stay counts *)

Lemma rows_nonneg_alter (patch : UserProgress -> UserProgress) uid w :
  (forall row, user_badge_progress (db w) !! uid = Some row ->
               counters_nonneg row -> counters_nonneg (patch row)) ->
  rows_nonneg w ->
  rows_nonneg (with_progress (alter patch uid (user_badge_progress (db w))) w).
Proof.
  intros Hpatch Hw u row. simpl. rewrite lookup_alter.
  case_decide as Hu.
  - subst u. destruct (user_badge_progress (db w) !! uid) as [row0|] eqn:Hrow; simpl; [| discriminate].
    intros [= <-]. apply Hpatch; [reflexivity | now apply (Hw uid)].
  - apply Hw.
Qed.

Lemma spec_streak_nonneg today yesterday lastActive consecutiveDays :
  0 <= consecutiveDays -> 0 <= spec_streak today yesterday lastActive consecutiveDays.
Proof. intros H. unfold spec_streak. repeat case_decide; lia. Qed.

Lemma rows_nonneg_handler env req w :
  rows_nonneg w -> rows_nonneg (handler env req w).2.
Proof.
  apply keeps_handler.
  - unfold rows_nonneg. intros w1 w2 ->. auto.
  - intros score current uid w1. apply rows_nonneg_alter. intros row _ H. exact H.
  - intros uid wallet w1 _ Hw u row. simpl. rewrite lookup_insert.
    case_decide; [| apply Hw].
    intros [= <-]. unfold counters_nonneg. simpl. lia.
  - intros env' data uid loaded w1 Hloaded. apply rows_nonneg_alter.
    intros row Hrow. assert (row = loaded) as -> by congruence.
    intros (Ht & Hp & Hc & Hm & Hs). unfold counters_nonneg. simpl.
    rewrite next_consecutive_days_spec, !or0_id.
    pose proof (spec_streak_nonneg (today env') (yesterdayStr env')
                  (last_active_date loaded) (consecutive_days loaded) Hc).
    lia.
  - intros data uid loaded w1 Hloaded. apply rows_nonneg_alter.
    intros row Hrow. assert (row = loaded) as -> by congruence.
    intros (Ht & Hp & Hc & Hm & Hs). unfold counters_nonneg. simpl.
    rewrite !or0_id. lia.
Qed.

(** Every row a sequence of requests leaves in a datastore that starts
    without progress rows satisfies the hypothesis of the lower bound
    of the score. *)
Lemma counters_nonneg_reachable (events : list (Env * Request)) (w : World) :
  user_badge_progress (db w) = ∅ ->
  rows_nonneg (run_events events w).
Proof.
  intros Hempty.
  assert (rows_nonneg w) as Hw.
  { intros u row. rewrite Hempty, lookup_empty. discriminate. }
  clear Hempty. revert w Hw. unfold run_events.
  induction events as [|[env req] events IH]; intros w Hw; simpl; [exact Hw |].
  apply IH, rows_nonneg_handler, Hw.
Qed.

(** The score of every row the service can come to store lies between
    0 and 10. *)
Lemma stored_scores_bounded (events : list (Env * Request)) (w : World) u row :
  user_badge_progress (db w) = ∅ ->
  user_badge_progress (db (run_events events w)) !! u = Some row ->
  (0 <= calculateIntentScore row <= 10)%Q.
Proof.
  intros Hempty Hrow. split.
  - apply calculateIntentScore_nonneg.
    exact (counters_nonneg_reachable events w Hempty u row Hrow).
  - apply Q.le_min_r.
Qed.

(** * The scenarios of the specification *)

(** A fresh user's first transaction, through [arcflow]: one
    transaction, one protocol, a streak of one day, and the badge
    [newcomer] among the new unlocks. *)
Example fresh_user_first_transaction :
  (handler Sample.env Sample.transaction_request Sample.empty_world).1
  = Ok {| newUnlocks := ["newcomer"];
          intentScore := calculateIntentScore
                           (transaction_patch Sample.env (eventData Sample.transaction_body)
                              Sample.fresh Sample.fresh);
          currentIdentityBadge := Some "newcomer";
          progress := {| totalTransactions := 1; uniqueProtocols := 1;
                         consecutiveDays := 1 |} |}.
Proof. vm_compute. reflexivity. Qed.

(** The same user transacts again on the same day: the streak stays at
    one day and the transactions go to two. *)
Example same_day_second_transaction :
  let w1 := (handler Sample.env Sample.transaction_request Sample.empty_world).2 in
  (fun row => (total_transactions row, consecutive_days row))
    <$> user_badge_progress (db (handler Sample.env Sample.transaction_request w1).2) !! "u1"
  = Some (2, 1).
Proof. vm_compute. reflexivity. Qed.

(** * Invariants of the whole world, for the requests of one user *)

Section WorldInvariant.

Variable uid : string.

(** A property of the world kept by each kind of write the handler
    makes for the user [uid]. *)
Variable I : World -> Prop.
Hypothesis I_console : forall line w, I w -> I (console_log line w).
Hypothesis I_create : forall row w,
  user_badge_progress (db w) !! uid = None ->
  I w -> I (with_progress (<[uid := row]> (user_badge_progress (db w))) w).
Hypothesis I_update : forall patch w,
  I w -> I (with_progress (alter patch uid (user_badge_progress (db w))) w).
Hypothesis I_unlock : forall b wallet badge w,
  unlock_exists uid (id badge) (badge_unlocks (db w)) = false ->
  I w ->
  I (with_unlocks (badge_unlocks (db w) ++ [unlock_row b uid wallet badge]) w).

Lemma world_get_or_create env wallet :
  keeps I (get_or_create_progress env uid wallet).
Proof.
  intros w Hw. unfold get_or_create_progress.
  rewrite (bind_returned get_world _ w w w) by reflexivity.
  destruct (select_progress_error env); simpl; [exact Hw |].
  destruct (user_badge_progress (db w) !! uid) eqn:Hrow; simpl; [exact Hw |].
  destruct (create_progress_error env); simpl; [exact Hw |].
  now apply I_create.
Qed.

Lemma world_update_progress failed patch :
  keeps I (update_progress failed uid patch).
Proof.
  intros w Hw. unfold update_progress. destruct failed; simpl; [exact Hw |].
  now apply I_update.
Qed.

Lemma world_apply_action env b loaded :
  keeps I (apply_action env b uid loaded).
Proof.
  unfold apply_action.
  destruct (String.eqb (action b) "transaction").
  { apply keeps_bind; [apply world_update_progress |].
    intros [|]; [apply keeps_throw | apply keeps_ret]. }
  destruct (String.eqb (action b) "social_share"); [| apply keeps_ret].
  apply keeps_bind; [apply world_update_progress |].
  intros [|]; [apply keeps_throw | apply keeps_ret].
Qed.

Lemma world_insert_unlock env b wallet badge :
  keeps I (insert_unlock env (unlock_row b uid wallet badge)).
Proof.
  intros w Hw. rewrite insert_unlock_run. cbn [unlock_row ul_user_id ul_badge_id].
  destruct (insert_unlock_error env (id badge)); simpl; [exact Hw |].
  destruct (unlock_exists uid (id badge) (badge_unlocks (db w))) eqn:Hex; simpl;
    [exact Hw |].
  now apply I_unlock.
Qed.

Lemma world_unlock_loop env b wallet ids progress catalog :
  forall news, keeps I (unlock_loop env b uid wallet ids progress catalog news).
Proof.
  induction catalog as [|badge rest IH]; intros news; cbn [unlock_loop].
  - apply keeps_ret.
  - destruct (bool_decide _); [apply IH |].
    destruct (checkBadgeCriteria _ _ _); [| apply IH].
    apply keeps_bind; [apply world_insert_unlock |].
    intros [|]; [apply IH |].
    apply keeps_bind; [| intros _; apply IH].
    apply keeps_modify. intros w. apply I_console.
Qed.

Lemma world_evaluate_badges env b wallet progress :
  keeps I (evaluate_badges env b uid wallet progress).
Proof.
  unfold evaluate_badges.
  apply keeps_bind; [| intros catalog].
  { apply keeps_bind; [apply keeps_get | intros w].
    destruct (select_badges_error env); [apply keeps_throw | apply keeps_ret]. }
  apply keeps_bind; [| intros unlocks].
  { apply keeps_bind; [apply keeps_get | intros w].
    destruct (select_unlocks_error env); [apply keeps_throw | apply keeps_ret]. }
  apply keeps_bind; [apply world_unlock_loop | intros news].
  apply keeps_bind; [apply world_update_progress | intros _; apply keeps_ret].
Qed.

Lemma world_process env req :
  request_user req = uid -> keeps I (process env req).
Proof.
  unfold request_user, process. destruct (body req) as [b|]; [| intros _; apply keeps_throw].
  simpl. intros ->.
  destruct (_ || _); [apply keeps_ret |].
  apply keeps_bind; [apply keeps_modify; intros w; apply I_console | intros _].
  apply keeps_bind; [apply world_get_or_create | intros loaded].
  apply keeps_bind; [apply world_apply_action | intros progress].
  apply world_evaluate_badges.
Qed.

Lemma world_handler env req w :
  request_user req = uid -> I w -> I (handler env req w).2.
Proof.
  intros Huid Hw. unfold handler. destruct (String.eqb _ _); [exact Hw |].
  pose proof (world_process env req Huid w Hw) as H.
  destruct (process env req w) as [[response|] w']; simpl; [exact H |].
  now apply I_console.
Qed.

End WorldInvariant.

(** * The footprint of a request *)

Lemma footprint_refl uid w : footprint uid w w.
Proof.
  repeat split; [exists [] | exists []]; rewrite ?app_nil_r; auto.
Qed.

Lemma handler_footprint env req w :
  footprint (request_user req) w (handler env req w).2.
Proof.
  apply (world_handler (request_user req) (footprint (request_user req) w));
    [| | | | reflexivity | apply footprint_refl].
  - intros line w1 (Hb & Hp & Hu & (lines & Hc)).
    repeat split; try assumption. exists (lines ++ [line]). simpl.
    now rewrite Hc, app_assoc.
  - intros row w1 _ (Hb & Hp & Hu & Hc).
    repeat split; try assumption. intros u Hne. simpl.
    rewrite lookup_insert_ne by congruence. now apply Hp.
  - intros patch w1 (Hb & Hp & Hu & Hc).
    repeat split; try assumption. intros u Hne. simpl.
    rewrite lookup_alter_ne by congruence. now apply Hp.
  - intros b wallet badge w1 _ (Hb & Hp & (added & Hu & Hall) & Hc).
    repeat split; try assumption.
    exists (added ++ [unlock_row b (request_user req) wallet badge]). simpl. split.
    + now rewrite Hu, app_assoc.
    + apply Forall_app. split; [exact Hall |]. now constructor.
Qed.

(** X1: no request writes the badge catalog. *)
Theorem catalog_read_only (env : Env) (req : Request) (w : World) :
  badges (db (handler env req w).2) = badges (db w).
Proof. apply handler_footprint. Qed.

(** X2: a request leaves the progress row of every user other than the
    one it names exactly as it was, whatever the datastore answers. *)
Theorem other_users_untouched (env : Env) (req : Request) (w : World) (u : string) :
  u <> request_user req ->
  user_badge_progress (db (handler env req w).2) !! u = user_badge_progress (db w) !! u.
Proof. intros Hne. now apply handler_footprint. Qed.

Lemma other_users_untouched_witness :
  user_badge_progress (db (handler Sample.env Sample.transaction_request Sample.world).2) !! "u2"
  = user_badge_progress (db Sample.world) !! "u2".
Proof. apply other_users_untouched. discriminate. Defined.

(** X3: a request never removes or rewrites an unlock row: the rows it
    finds stay in place, and the rows it adds come after them and all
    belong to the user it names. *)
Theorem unlocks_only_appended (env : Env) (req : Request) (w : World) :
  exists added,
    badge_unlocks (db (handler env req w).2) = badge_unlocks (db w) ++ added /\
    Forall (fun r => ul_user_id r = request_user req) added.
Proof. apply handler_footprint. Qed.

(** X4: over any sequence of requests the unlock rows present at the
    start remain, in place: unlocking is never reversed. *)
Theorem unlocks_never_reversed (events : list (Env * Request)) (w : World) :
  badge_unlocks (db w) `prefix_of` badge_unlocks (db (run_events events w)).
Proof.
  revert w. unfold run_events.
  induction events as [|[env req] events IH]; intros w; simpl; [reflexivity |].
  etransitivity; [| apply IH].
  destruct (handler_footprint env req w) as (_ & _ & Hadded & _); destruct (Hadded) as (added & -> & _).
  now apply prefix_app_r.
Qed.

(** * At most one unlock per user and badge *)

Lemma unlock_exists_false_not_elem uid bid rows :
  unlock_exists uid bid rows = false -> (uid, bid) ∉ unlock_key <$> rows.
Proof.
  intros Hex Hin. apply list_elem_of_fmap in Hin as (r & Hkey & Hr).
  assert (unlock_exists uid bid rows = true) as Htrue; [| congruence].
  apply existsb_exists. exists r. split; [now apply list_elem_of_In |].
  unfold unlock_key in Hkey. injection Hkey as -> ->.
  now rewrite !String.eqb_refl.
Qed.

(** X5: if the unlock table holds at most one row for each user and
    badge, it still does after any sequence of requests: the service
    never records the same unlock twice. *)
Theorem unlocks_stay_unique (events : list (Env * Request)) (w : World) :
  unlocks_unique w -> unlocks_unique (run_events events w).
Proof.
  revert w. unfold run_events.
  induction events as [|[env req] events IH]; intros w Hw; simpl; [exact Hw |].
  apply IH.
  apply (world_handler (request_user req) unlocks_unique);
    [| | | | reflexivity | exact Hw]; unfold unlocks_unique; try (intros; assumption).
  intros b wallet badge w1 Hex Hunique. simpl.
  rewrite fmap_app. apply NoDup_app. split; [exact Hunique |]. split.
  - intros key Hkey Hnew. simpl in Hnew. apply list_elem_of_singleton in Hnew. subst key.
    now apply (unlock_exists_false_not_elem _ _ _ Hex).
  - simpl. apply NoDup_singleton.
Qed.

Lemma unlocks_stay_unique_witness :
  unlocks_unique
    (run_events [(Sample.env, Sample.transaction_request);
                 (Sample.env, Sample.transaction_request)] Sample.world).
Proof.
  apply unlocks_stay_unique.
  apply (bool_decide_unpack (NoDup (unlock_key <$> badge_unlocks (db Sample.world)))).
  vm_compute. exact I.
Defined.

(** * How the handler answers *)

Lemma get_or_create_progress_eq env uid wallet w :
  get_or_create_progress env uid wallet w
  = if select_progress_error env then (Thrown, w)
    else match user_badge_progress (db w) !! uid with
         | Some row => (Returned row, w)
         | None =>
             if create_progress_error env then (Thrown, w)
             else (Returned (new_progress uid wallet),
                   with_progress
                     (<[uid := new_progress uid wallet]> (user_badge_progress (db w))) w)
         end.
Proof.
  unfold get_or_create_progress.
  rewrite (bind_returned get_world _ w w w) by reflexivity.
  destruct (select_progress_error env); [reflexivity |].
  destruct (user_badge_progress (db w) !! uid); [reflexivity |].
  destruct (create_progress_error env); reflexivity.
Qed.

Lemma apply_action_eq env b uid loaded w :
  apply_action env b uid loaded w
  = if handled b && update_progress_error env then (Thrown, w)
    else (Returned (progress_after env b loaded), action_world env b uid loaded w).
Proof.
  unfold apply_action, handled, progress_after, action_world, action_patch, update_progress.
  destruct (String.eqb (action b) "transaction"); simpl.
  { destruct (update_progress_error env); reflexivity. }
  destruct (String.eqb (action b) "social_share"); simpl; [| reflexivity].
  destruct (update_progress_error env); reflexivity.
Qed.

Lemma evaluate_badges_outcome env b uid wallet progress w :
  if negb (select_badges_error env) && negb (select_unlocks_error env)
  then exists payload w',
         evaluate_badges env b uid wallet progress w = (Returned (Ok payload), w')
  else exists w', evaluate_badges env b uid wallet progress w = (Thrown, w').
Proof.
  destruct (select_badges_error env) eqn:Hbadges; simpl.
  { exists w. unfold evaluate_badges, select_active_badges. rewrite Hbadges. reflexivity. }
  destruct (select_unlocks_error env) eqn:Hunlocks; simpl.
  { exists w. unfold evaluate_badges, select_active_badges, select_unlocks.
    rewrite Hbadges, Hunlocks. reflexivity. }
  destruct (unlock_loop_returns env b uid wallet (unlocked_before w uid) progress
              (active_catalog w) [] w) as (news & w' & Hloop & _).
  eexists _, _. apply (evaluate_badges_run env b uid wallet progress w news w'); [| exact Hloop].
  split; assumption.
Qed.

Lemma process_accepted_eq env req b uid wallet w :
  accepted req b uid wallet ->
  process env req w
  = (get_or_create_progress env uid wallet
       ≫= fun loaded => apply_action env b uid loaded
       ≫= fun progress => evaluate_badges env b uid wallet progress)
      (console_log (processing_line b wallet) w).
Proof.
  intros (Hmethod & Hbody & Huid & Huid_ne & Hwallet & Hwallet_ne).
  unfold process. rewrite Hbody, Huid, Hwallet.
  rewrite !falsy_some_nonempty by assumption. simpl.
  erewrite bind_returned by reflexivity. reflexivity.
Qed.

Lemma accepted_response env req b uid wallet w :
  accepted req b uid wallet ->
  if datastore_answers env b uid w
  then exists payload, (handler env req w).1 = Ok payload
  else (handler env req w).1 = InternalServerError "Internal server error".
Proof.
  intros Hreq. pose proof Hreq as (Hmethod & _).
  unfold handler. rewrite Hmethod, (process_accepted_eq env req b uid wallet w Hreq).
  unfold datastore_answers, mbind, Eff_bind.
  rewrite get_or_create_progress_eq. cbn [console_log db].
  destruct (select_progress_error env); simpl; [reflexivity |].
  assert (forall loaded w2,
             if (negb (handled b) || negb (update_progress_error env))
                && negb (select_badges_error env) && negb (select_unlocks_error env)
             then exists payload,
                 (let (o, w') :=
                    let (o, w') := apply_action env b uid loaded w2 in
                    match o with
                    | Returned a => evaluate_badges env b uid wallet a w'
                    | Thrown => (Thrown, w')
                    end in
                  match o with
                  | Returned response => (response, w')
                  | Thrown =>
                      (InternalServerError "Internal server error",
                       console_log "[badge-service] Error:" w')
                  end).1 = Ok payload
             else (let (o, w') :=
                     let (o, w') := apply_action env b uid loaded w2 in
                     match o with
                     | Returned a => evaluate_badges env b uid wallet a w'
                     | Thrown => (Thrown, w')
                     end in
                   match o with
                   | Returned response => (response, w')
                   | Thrown =>
                       (InternalServerError "Internal server error",
                        console_log "[badge-service] Error:" w')
                   end).1 = InternalServerError "Internal server error") as Hrest.
  { intros loaded w2. rewrite apply_action_eq.
    destruct (handled b), (update_progress_error env); simpl; try reflexivity.
    all: pose proof (evaluate_badges_outcome env b uid wallet
                       (progress_after env b loaded) (action_world env b uid loaded w2)) as Hout;
      destruct (negb (select_badges_error env) && negb (select_unlocks_error env));
      [destruct Hout as (payload & w' & ->); eauto | destruct Hout as (w' & ->); reflexivity]. }
  destruct (user_badge_progress (db w) !! uid) as [row|] eqn:Hrow; simpl.
  - apply Hrest.
  - destruct (create_progress_error env); simpl; [reflexivity |]. apply Hrest.
Qed.

(** X6: a request with a body is answered 400 exactly when its [userId]
    or its [walletAddress] is missing or empty, and such a request
    changes nothing: no row, no unlock, no console line. *)
Theorem bad_request_iff_missing_fields (env : Env) (req : Request) (b : Body) (w : World) :
  String.eqb (method req) "OPTIONS" = false ->
  body req = Some b ->
  ((exists msg, (handler env req w).1 = BadRequest msg)
   <-> falsy (userId b) || falsy (walletAddress b) = true) /\
  (falsy (userId b) || falsy (walletAddress b) = true ->
   handler env req w = (BadRequest "Missing userId or walletAddress", w)).
Proof.
  intros Hmethod Hbody.
  assert (falsy (userId b) || falsy (walletAddress b) = true ->
          handler env req w = (BadRequest "Missing userId or walletAddress", w)) as Hreject.
  { intros Hfalsy. unfold handler, process. now rewrite Hmethod, Hbody, Hfalsy. }
  split; [| exact Hreject]. split.
  - intros [msg Hmsg].
    destruct (falsy (userId b) || falsy (walletAddress b)) eqn:Hfalsy; [reflexivity |].
    exfalso. apply orb_false_iff in Hfalsy as [Hu Hw].
    unfold falsy, Js.truthy_str_opt, Js.truthy_str in Hu, Hw.
    destruct (userId b) as [uid|] eqn:Huid; [| discriminate].
    destruct (walletAddress b) as [wallet|] eqn:Hwallet; [| discriminate].
    assert (accepted req b uid wallet) as Hreq.
    { repeat split; try assumption.
      - intros ->. discriminate.
      - intros ->. discriminate. }
    pose proof (accepted_response env req b uid wallet w Hreq) as Hresp.
    destruct (datastore_answers env b uid w).
    + destruct Hresp as [payload Hok]. congruence.
    + congruence.
  - intros Hfalsy. rewrite (Hreject Hfalsy). eauto.
Qed.

Lemma bad_request_iff_missing_fields_witness :
  handler Sample.env SampleMore.anonymous_request Sample.world
  = (BadRequest "Missing userId or walletAddress", Sample.world).
Proof.
  apply (bad_request_iff_missing_fields Sample.env SampleMore.anonymous_request
           SampleMore.anonymous_body Sample.world); reflexivity.
Defined.

(** X7: an accepted request succeeds exactly when the datastore answers
    the calls whose error the handler looks at (the progress lookup, the
    creation of a missing row, the update of a handled action, the
    catalog and unlock queries); otherwise it is answered 500.  Errors
    of the unlock insertions and of the final score update never make
    the request fail. *)
Theorem success_iff_datastore_answers
    (env : Env) (req : Request) (b : Body) (uid wallet : string) (w : World) :
  accepted req b uid wallet ->
  ((exists payload, (handler env req w).1 = Ok payload)
   <-> datastore_answers env b uid w = true) /\
  (datastore_answers env b uid w = false ->
   (handler env req w).1 = InternalServerError "Internal server error").
Proof.
  intros Hreq. pose proof (accepted_response env req b uid wallet w Hreq) as Hresp.
  destruct (datastore_answers env b uid w).
  - split; [| discriminate]. split; [reflexivity | intros _; exact Hresp].
  - split; [| intros _; exact Hresp]. split; [| discriminate].
    intros [payload Hok]. congruence.
Qed.

Lemma success_iff_datastore_answers_witness :
  (exists payload,
     (handler Sample.env_insert_refused Sample.transaction_request Sample.world).1
     = Ok payload).
Proof.
  apply (success_iff_datastore_answers Sample.env_insert_refused Sample.transaction_request
           Sample.transaction_body "u1" "0xabc" Sample.world).
  - repeat split; done.
  - reflexivity.
Defined.

(** * What the service keeps true of the rows it writes *)

Lemma rows_all_alter (P : UserProgress -> Prop) (patch : UserProgress -> UserProgress) uid w :
  (forall row, user_badge_progress (db w) !! uid = Some row -> P row -> P (patch row)) ->
  rows_all P w ->
  rows_all P (with_progress (alter patch uid (user_badge_progress (db w))) w).
Proof.
  intros Hpatch Hw u row. simpl. rewrite lookup_alter.
  case_decide as Hu; [| apply Hw].
  subst u. destruct (user_badge_progress (db w) !! uid) as [row0|] eqn:Hrow; simpl;
    [| discriminate].
  intros [= <-]. apply Hpatch; [reflexivity | now apply (Hw uid)].
Qed.

Section RowInvariant.

Variable P : UserProgress -> Prop.
Hypothesis P_new : forall uid wallet, P (new_progress uid wallet).
Hypothesis P_transaction : forall env data row,
  P row -> P (transaction_patch env data row row).
Hypothesis P_social_share : forall data row,
  P row -> P (social_share_patch data row row).
Hypothesis P_score : forall score current row,
  P row -> P (score_patch score current row).

Lemma rows_all_handler env req w :
  rows_all P w -> rows_all P (handler env req w).2.
Proof.
  apply keeps_handler.
  - unfold rows_all. intros w1 w2 ->. auto.
  - intros score current uid w1. apply rows_all_alter. intros row _. apply P_score.
  - intros uid wallet w1 _ Hw u row. simpl. rewrite lookup_insert.
    case_decide; [| apply Hw]. intros [= <-]. apply P_new.
  - intros env' data uid loaded w1 Hloaded. apply rows_all_alter.
    intros row Hrow. assert (row = loaded) as -> by congruence. apply P_transaction.
  - intros data uid loaded w1 Hloaded. apply rows_all_alter.
    intros row Hrow. assert (row = loaded) as -> by congruence. apply P_social_share.
Qed.

Lemma rows_all_run_events (events : list (Env * Request)) w :
  rows_all P w -> rows_all P (run_events events w).
Proof.
  revert w. unfold run_events.
  induction events as [|[env req] events IH]; intros w Hw; simpl; [exact Hw |].
  apply IH, rows_all_handler, Hw.
Qed.

End RowInvariant.

Lemma rows_all_sample_world (P : UserProgress -> Prop) :
  P Sample.veteran -> rows_all P Sample.world.
Proof.
  intros HP u row Hrow. simpl in Hrow.
  apply lookup_singleton_Some in Hrow as [_ <-]. exact HP.
Qed.

Lemma push_protocol_NoDup protocol protocols :
  NoDup protocols -> NoDup (push_protocol protocol protocols).
Proof.
  intros Hnodup. unfold push_protocol. destruct protocol as [p|]; [| exact Hnodup].
  destruct (Js.truthy_str p); simpl; [| exact Hnodup].
  case_bool_decide as Hin; simpl; [exact Hnodup |].
  apply NoDup_app. repeat split; [exact Hnodup | | apply NoDup_singleton].
  intros x Hx Hp. apply list_elem_of_singleton in Hp. subst x. contradiction.
Qed.

Lemma push_protocol_length protocol protocols :
  (length (push_protocol protocol protocols) <= length protocols + 1)%nat.
Proof.
  unfold push_protocol. destruct protocol as [p|]; [| lia].
  destruct (_ && _); [rewrite length_app; simpl |]; lia.
Qed.

(** X8: the current streak never exceeds the high-water mark: rows that
    have [consecutive_days <= max_consecutive_days] still have it after
    any sequence of requests. *)
Theorem streak_never_exceeds_max (events : list (Env * Request)) (w : World) :
  rows_all streak_below_max w -> rows_all streak_below_max (run_events events w).
Proof.
  apply rows_all_run_events; unfold streak_below_max.
  - intros uid wallet. simpl. lia.
  - intros env data row H. simpl. lia.
  - intros data row H. exact H.
  - intros score current row H. exact H.
Qed.

Lemma streak_never_exceeds_max_witness :
  rows_all streak_below_max
    (run_events [(Sample.env, Sample.transaction_request);
                 (Sample.env, Sample.share_request)] Sample.world).
Proof.
  apply streak_never_exceeds_max, rows_all_sample_world.
  unfold streak_below_max. simpl. lia.
Defined.

(** X9: [unique_protocols] is the number of protocols in
    [protocols_interacted] and that list never holds a protocol twice:
    rows for which this is true keep it through any sequence of
    requests. *)
Theorem protocols_stay_coherent (events : list (Env * Request)) (w : World) :
  rows_all protocols_coherent w -> rows_all protocols_coherent (run_events events w).
Proof.
  apply rows_all_run_events; unfold protocols_coherent.
  - intros uid wallet. simpl. split; [reflexivity | constructor].
  - intros env data row [_ Hnodup]. simpl. split; [reflexivity |].
    now apply push_protocol_NoDup.
  - intros data row H. exact H.
  - intros score current row H. exact H.
Qed.

Lemma protocols_stay_coherent_witness :
  rows_all protocols_coherent
    (run_events [(Sample.env, Sample.transaction_request);
                 (Sample.env, Sample.transaction_request)] Sample.world).
Proof.
  apply protocols_stay_coherent, rows_all_sample_world.
  split; [reflexivity |].
  apply (bool_decide_unpack (NoDup (protocols_interacted Sample.veteran))).
  vm_compute. exact I.
Defined.

(** X10: the transaction count bounds the streak and the number of
    protocols, a user without transactions has no [last_active_date],
    and a user with a transaction has a streak of at least one day: rows
    for which this is true keep it through any sequence of requests. *)
Theorem counters_bounded_by_transactions (events : list (Env * Request)) (w : World) :
  rows_all bounded_by_transactions w ->
  rows_all bounded_by_transactions (run_events events w).
Proof.
  apply rows_all_run_events; unfold bounded_by_transactions.
  - intros uid wallet. simpl. repeat split; try lia; try reflexivity.
  - intros env data row (Ht & Hc & Hp & Hnone & Hsome). simpl.
    rewrite next_consecutive_days_spec, !or0_id.
    pose proof (push_protocol_length (data ≫= ev_protocol) (protocols_interacted row)) as Hlen.
    unfold spec_streak.
    assert (last_active_date row <> None -> 1 <= consecutive_days row) as Hactive.
    { intros Hlast. apply Hsome.
      destruct (Z.eq_dec (total_transactions row) 0) as [Hz|Hz]; [| lia].
      now specialize (Hnone Hz). }
    assert (last_active_date row = Some (today env) -> 1 <= consecutive_days row) as Htoday
      by (intros Heq; apply Hactive; congruence).
    assert (last_active_date row = Some (yesterdayStr env) -> 1 <= consecutive_days row)
      as Hyesterday by (intros Heq; apply Hactive; congruence).
    split; [lia |]. split; [repeat case_decide; lia |]. split; [lia |].
    split; [lia |]. intros _. repeat case_decide; auto; [| lia].
    specialize (Hyesterday ltac:(assumption)). lia.
  - intros data row H. exact H.
  - intros score current row H. exact H.
Qed.

Lemma counters_bounded_by_transactions_witness :
  rows_all bounded_by_transactions
    (run_events [(Sample.env, Sample.transaction_request);
                 (Sample.env, Sample.share_request)] Sample.world).
Proof.
  apply counters_bounded_by_transactions, rows_all_sample_world.
  unfold bounded_by_transactions. simpl. repeat split; try lia; try discriminate.
Defined.

Lemma getVoiceState_range progress : 0 <= getVoiceState progress <= 3.
Proof.
  unfold getVoiceState.
  destruct (_ && _); [lia |].
  destruct (_ >=? 5); [lia |].
  destruct (_ >=? 1); lia.
Qed.

(** X11: the stored [voice_state] is always the state [getVoiceState]
    gives for the stored shares and engagement, hence between 0 and 3
    (the check constraint of the column is never violated): rows for
    which this is true keep it through any sequence of requests. *)
Theorem voice_state_stays_coherent (events : list (Env * Request)) (w : World) :
  rows_all voice_coherent w ->
  rows_all (fun row => voice_coherent row /\ 0 <= voice_state row <= 3)
    (run_events events w).
Proof.
  intros Hw u row Hrow.
  assert (voice_coherent row) as Hcoherent.
  { revert u row Hrow. fold (rows_all voice_coherent (run_events events w)).
    revert Hw. apply rows_all_run_events; unfold voice_coherent.
    - reflexivity.
    - intros env data row0 H. exact H.
    - reflexivity.
    - intros score current row0 H. exact H. }
  split; [exact Hcoherent |].
  rewrite Hcoherent. apply getVoiceState_range.
Qed.

Lemma voice_state_stays_coherent_witness :
  rows_all (fun row => voice_coherent row /\ 0 <= voice_state row <= 3)
    (run_events [(Sample.env, Sample.share_request);
                 (Sample.env, Sample.transaction_request)] Sample.world).
Proof.
  apply voice_state_stays_coherent, rows_all_sample_world. reflexivity.
Defined.

(** * Further facts about the pure functions *)

(** X12: [getVoiceState] never decreases when the shares and the
    engagement do not. *)
Theorem getVoiceState_monotone (p q : UserProgress) :
  social_shares p <= social_shares q ->
  total_engagement p <= total_engagement q ->
  getVoiceState p <= getVoiceState q.
Proof.
  intros Hs He. rewrite !getVoiceState_spec. unfold spec_voice_state.
  repeat case_decide; lia.
Qed.

Lemma getVoiceState_monotone_witness :
  getVoiceState Sample.veteran <= getVoiceState Sample.veteran_more_shares.
Proof. apply getVoiceState_monotone; simpl; lia. Defined.

Lemma set_and_above_antitone k counter counter' :
  counter <= counter' ->
  Js.set_and_above k counter = false -> Js.set_and_above k counter' = false.
Proof.
  intros Hle. unfold Js.set_and_above. destruct k as [t|]; [| reflexivity].
  destruct (t =? 0); simpl; [reflexivity |].
  intros H. apply Z.ltb_ge in H. apply Z.ltb_ge. lia.
Qed.

(** X13: progress never loses a badge its criteria grant: if the
    criteria of a badge hold for a progress record, they hold, at the
    same instant, for every record with at least as many transactions,
    streak days and protocols. *)
Theorem checkBadgeCriteria_monotone (now : Z) (badge : Badge) (p q : UserProgress) :
  total_transactions p <= total_transactions q ->
  consecutive_days p <= consecutive_days q ->
  unique_protocols p <= unique_protocols q ->
  checkBadgeCriteria now badge p = true ->
  checkBadgeCriteria now badge q = true.
Proof.
  intros Ht Hc Hp. unfold checkBadgeCriteria. cbv zeta.
  destruct (Js.set_and_above (min_transactions _) (total_transactions p)) eqn:H1;
    [discriminate |].
  rewrite (set_and_above_antitone _ _ _ Ht H1).
  destruct (Js.set_and_above (min_consecutive_days _) (consecutive_days p)) eqn:H2;
    [discriminate |].
  rewrite (set_and_above_antitone _ _ _ Hc H2).
  destruct (Js.set_and_above (min_protocols _) (unique_protocols p)) eqn:H3;
    [discriminate |].
  rewrite (set_and_above_antitone _ _ _ Hp H3).
  destruct (Js.truthy_bool (verified_on_chain (criteria badge))); simpl; [| auto].
  destruct (Z.ltb_spec (total_transactions p) 1); [discriminate |].
  destruct (Z.ltb_spec (total_transactions q) 1); [lia | auto].
Qed.

Lemma checkBadgeCriteria_monotone_witness :
  checkBadgeCriteria 0 Sample.active Sample.veteran_more_shares = true.
Proof.
  apply (checkBadgeCriteria_monotone 0 Sample.active Sample.veteran);
    simpl; try lia. reflexivity.
Defined.

Lemma capped_ratio_full (d : positive) (n : Z) (cap : Z) :
  (Qmin (inject_Z n / inject_Z (Zpos d)) (inject_Z cap) == inject_Z cap)%Q
  <-> cap * Zpos d <= n.
Proof.
  rewrite Q.min_r_iff. unfold Qle, Qdiv, Qmult, Qinv, inject_Z. simpl. lia.
Qed.

Lemma calculateIntentScore_sum progress :
  (calculateIntentScore progress
   == transactions_points progress + protocols_points progress
      + consecutive_points progress + max_consecutive_points progress
      + social_points progress)%Q.
Proof.
  rewrite calculateIntentScore_spec. unfold spec_intent_score.
  apply Q.min_l, points_sum_le_10.
Qed.

(** X14: the last [Math.min(score, 10)] never takes effect: the score
    is the plain sum of the five capped contributions. *)
Theorem final_cap_redundant (progress : UserProgress) :
  (calculateIntentScore progress
   == transactions_points progress + protocols_points progress
      + consecutive_points progress + max_consecutive_points progress
      + social_points progress)%Q.
Proof. apply calculateIntentScore_sum. Qed.

(** X15: the score is 10 exactly when every contribution is at its
    cap: at least 100 transactions, 10 protocols, a streak of 30 days, a
    longest streak of 30 days and 10 shares. *)
Theorem full_score_iff (progress : UserProgress) :
  (calculateIntentScore progress == 10)%Q
  <-> 100 <= total_transactions progress /\
      10 <= unique_protocols progress /\
      30 <= consecutive_days progress /\
      30 <= max_consecutive_days progress /\
      10 <= social_shares progress.
Proof.
  rewrite calculateIntentScore_sum.
  pose proof (capped_ratio_full 50 (total_transactions progress) 2) as Ht.
  pose proof (capped_ratio_full 5 (unique_protocols progress) 2) as Hp.
  pose proof (capped_ratio_full 10 (consecutive_days progress) 3) as Hc.
  pose proof (capped_ratio_full 15 (max_consecutive_days progress) 2) as Hm.
  pose proof (capped_ratio_full 10 (social_shares progress) 1) as Hs.
  pose proof (Q.le_min_r (inject_Z (total_transactions progress) / 50) 2) as Lt.
  pose proof (Q.le_min_r (inject_Z (unique_protocols progress) / 5) 2) as Lp.
  pose proof (Q.le_min_r (inject_Z (consecutive_days progress) / 10) 3) as Lc.
  pose proof (Q.le_min_r (inject_Z (max_consecutive_days progress) / 15) 2) as Lm.
  pose proof (Q.le_min_r (inject_Z (social_shares progress) / 10) 1) as Ls.
  unfold transactions_points, protocols_points, consecutive_points,
    max_consecutive_points, social_points.
  change (inject_Z (Zpos 50)) with (50 : Q) in *. change (inject_Z (Zpos 5)) with (5 : Q) in *.
  change (inject_Z (Zpos 10)) with (10 : Q) in *. change (inject_Z (Zpos 15)) with (15 : Q) in *.
  change (inject_Z 2) with (2 : Q) in *. change (inject_Z 3) with (3 : Q) in *.
  change (inject_Z 1) with (1 : Q) in *.
  split.
  - intros Hsum.
    assert (Qmin (inject_Z (total_transactions progress) / 50) 2 == 2)%Q as E1 by lra.
    assert (Qmin (inject_Z (unique_protocols progress) / 5) 2 == 2)%Q as E2 by lra.
    assert (Qmin (inject_Z (consecutive_days progress) / 10) 3 == 3)%Q as E3 by lra.
    assert (Qmin (inject_Z (max_consecutive_days progress) / 15) 2 == 2)%Q as E4 by lra.
    assert (Qmin (inject_Z (social_shares progress) / 10) 1 == 1)%Q as E5 by lra.
    apply Ht in E1. apply Hp in E2. apply Hc in E3. apply Hm in E4. apply Hs in E5. lia.
  - intros (H1 & H2 & H3 & H4 & H5).
    assert (Qmin (inject_Z (total_transactions progress) / 50) 2 == 2)%Q as E1
      by (apply Ht; lia).
    assert (Qmin (inject_Z (unique_protocols progress) / 5) 2 == 2)%Q as E2
      by (apply Hp; lia).
    assert (Qmin (inject_Z (consecutive_days progress) / 10) 3 == 3)%Q as E3
      by (apply Hc; lia).
    assert (Qmin (inject_Z (max_consecutive_days progress) / 15) 2 == 2)%Q as E4
      by (apply Hm; lia).
    assert (Qmin (inject_Z (social_shares progress) / 10) 1 == 1)%Q as E5
      by (apply Hs; lia).
    lra.
Qed.

(** * Further facts about an accepted request *)

Lemma with_score_id row :
  with_score (intent_score row) (current_identity_badge row) row = row.
Proof. destruct row. reflexivity. Qed.

(** The value the datastore keeps of a score is the score rounded to
    two decimals. *)
Lemma numeric_4_2_two_decimals x : two_decimals_of x (numeric_4_2 x).
Proof.
  unfold two_decimals_of, numeric_4_2. destruct (Qle_bool 0 x).
  - split; [eexists; reflexivity |].
    pose proof (Qfloor_le (x * 100 + (1 # 2))) as Hlo.
    pose proof (Qlt_floor (x * 100 + (1 # 2))) as Hhi.
    set (n := Qfloor (x * 100 + (1 # 2))) in *.
    assert (n # 100 == inject_Z n / 100)%Q as ->
      by (unfold Qeq, Qdiv, Qmult, Qinv, inject_Z; simpl; lia).
    rewrite inject_Z_plus in Hhi. change (inject_Z 1) with 1%Q in Hhi.
    clearbody n. set (q := inject_Z n) in *. clearbody q.
    unfold Qdiv. change (/ 100)%Q with (1 # 100)%Q.
    split; lra.
  - split; [eexists; reflexivity |].
    pose proof (Qfloor_le (- x * 100 + (1 # 2))) as Hlo.
    pose proof (Qlt_floor (- x * 100 + (1 # 2))) as Hhi.
    set (n := Qfloor (- x * 100 + (1 # 2))) in *.
    assert (- n # 100 == - inject_Z n / 100)%Q as ->
      by (unfold Qeq, Qdiv, Qmult, Qinv, Qopp, inject_Z; simpl; lia).
    rewrite inject_Z_plus in Hhi. change (inject_Z 1) with 1%Q in Hhi.
    clearbody n. set (q := inject_Z n) in *. clearbody q.
    unfold Qdiv. change (/ 100)%Q with (1 # 100)%Q.
    split; lra.
Qed.

(** X16: an action other than [transaction] and [social_share] changes
    no counter: once the progress row is loaded or created, the request
    leaves it as loaded, up to the score and the identity badge the
    handler writes at the end. *)
Theorem unhandled_action_keeps_counters
    (env : Env) (req : Request) (b : Body) (uid wallet : string) (w : World) :
  accepted req b uid wallet ->
  handled b = false ->
  select_progress_error env = false ->
  create_progress_error env = false ->
  exists score current,
    user_badge_progress (db (handler env req w).2) !! uid
    = Some (with_score score current (loaded_progress w uid wallet)).
Proof.
  intros Hreq Hhandled Hselect Hcreate. pose proof Hreq as (Hmethod & _).
  set (F := fun row => exists score current,
                row = with_score score current (loaded_progress w uid wallet)).
  assert (row_satisfies uid F (handler env req w).2) as (row & Hrow & score & current & ->);
    [| eauto].
  assert (forall score current row, F row -> F (score_patch score current row)) as F_score.
  { intros score current row (s & c & ->). exists (numeric_4_2 score), current.
    reflexivity. }
  unfold handler. rewrite Hmethod, (process_accepted_eq env req b uid wallet w Hreq).
  unfold mbind, Eff_bind.
  rewrite get_or_create_progress_eq, Hselect, Hcreate.
  set (w1 := console_log (processing_line b wallet) w).
  assert (exists w2,
             (match user_badge_progress (db w1) !! uid with
              | Some row => (Returned row, w1)
              | None =>
                  (Returned (new_progress uid wallet),
                   with_progress
                     (<[uid := new_progress uid wallet]> (user_badge_progress (db w1))) w1)
              end) = (Returned (loaded_progress w uid wallet), w2) /\
             user_badge_progress (db w2) !! uid = Some (loaded_progress w uid wallet))
    as (w2 & -> & Hloaded).
  { unfold loaded_progress. subst w1. simpl.
    destruct (user_badge_progress (db w) !! uid) as [row|] eqn:Hrow; simpl.
    - eexists. split; [reflexivity | exact Hrow].
    - eexists. split; [reflexivity |]. simpl. apply lookup_insert_eq. }
  rewrite apply_action_eq, Hhandled. simpl.
  unfold action_world. fold (handled b). rewrite Hhandled.
  assert (row_satisfies uid F w2) as Hin.
  { eexists. split; [exact Hloaded |].
    exists (intent_score (loaded_progress w uid wallet)),
      (current_identity_badge (loaded_progress w uid wallet)).
    symmetry. apply with_score_id. }
  pose proof (keeps_evaluate_badges (row_satisfies uid F)) as Htail.
  specialize (Htail ltac:(unfold row_satisfies; intros w3 w4 ->; auto)).
  specialize (Htail ltac:(intros; now apply row_satisfies_score)).
  specialize (Htail env b uid wallet (progress_after env b (loaded_progress w uid wallet)) w2 Hin).
  destruct (evaluate_badges _ _ _ _ _ _) as [[response|] w']; simpl; exact Htail.
Qed.

Lemma unhandled_action_keeps_counters_witness :
  exists score current,
    user_badge_progress
      (db (handler Sample.env SampleMore.daily_check_request Sample.world).2) !! "u1"
    = Some (with_score score current Sample.veteran).
Proof.
  apply (unhandled_action_keeps_counters Sample.env SampleMore.daily_check_request
           SampleMore.daily_check_body "u1" "0xabc" Sample.world); try reflexivity.
  repeat split; done.
Defined.

(** Whole numbers of 150ths: the ratios, the caps, their sums and
    minima, hence the score. *)
Lemma in_150ths_ratio (k : Z) (d : positive) :
  (Z.pos d | 150)%Z -> in_150ths (inject_Z k / inject_Z (Z.pos d)).
Proof.
  intros [c Hc]. exists (k * c)%Z.
  unfold Qeq, Qdiv, Qmult, Qinv, inject_Z. simpl.
  rewrite Pos.mul_1_l, Hc. ring.
Qed.

Lemma in_150ths_Z (k : Z) : in_150ths (inject_Z k).
Proof. exists (k * 150)%Z. unfold Qeq, inject_Z. simpl. lia. Qed.

Lemma in_150ths_plus x y : in_150ths x -> in_150ths y -> in_150ths (x + y).
Proof.
  intros [n Hn] [m Hm]. exists (n + m)%Z. rewrite Hn, Hm.
  unfold Qeq, Qplus. simpl. lia.
Qed.

Lemma in_150ths_min x y : in_150ths x -> in_150ths y -> in_150ths (Qmin x y).
Proof.
  intros Hx Hy. destruct (Q.min_dec x y) as [H|H]; unfold in_150ths; 
    [destruct Hx as [n Hn]; exists n | destruct Hy as [n Hn]; exists n]; now rewrite H.
Qed.

Lemma score_in_150ths progress : in_150ths (calculateIntentScore progress).
Proof.
  unfold calculateIntentScore. cbv zeta.
  repeat first
    [ apply in_150ths_min
    | apply in_150ths_plus
    | apply (in_150ths_Z 0) | apply (in_150ths_Z 1) | apply (in_150ths_Z 2)
    | apply (in_150ths_Z 3) | apply (in_150ths_Z 10)
    | apply (in_150ths_ratio _ 50); now exists 3%Z
    | apply (in_150ths_ratio _ 5); now exists 30%Z
    | apply (in_150ths_ratio _ 10); now exists 15%Z
    | apply (in_150ths_ratio _ 15); now exists 10%Z ].
Qed.

(** The score is never halfway between two hundredths, nor within
    1/600 of it: the rounding of the column does not depend on the last
    bits of the number the handler sends. *)
Lemma score_clear_of_ties progress (m : Z) :
  (calculateIntentScore progress + (1 # 600) <= ((2 * m + 1) # 200)
   \/ ((2 * m + 1) # 200) + (1 # 600) <= calculateIntentScore progress)%Q.
Proof.
  destruct (score_in_150ths progress) as [n Hn]. rewrite Hn.
  unfold Qle, Qplus. simpl. lia.
Qed.

(** The handler's copy of the record and the row the [switch] leaves
    have the same counters, hence the same score. *)
Lemma progress_after_stored env b loaded :
  calculateIntentScore (progress_after env b loaded)
  = calculateIntentScore (action_patch env b loaded loaded) /\
  total_transactions (progress_after env b loaded)
  = total_transactions (action_patch env b loaded loaded) /\
  unique_protocols (progress_after env b loaded)
  = unique_protocols (action_patch env b loaded loaded) /\
  consecutive_days (progress_after env b loaded)
  = consecutive_days (action_patch env b loaded loaded).
Proof.
  unfold progress_after, action_patch.
  destruct (String.eqb (action b) "transaction"); [repeat split |].
  destruct (String.eqb (action b) "social_share"); [| repeat split].
  generalize (eventData b). intros data.
  unfold calculateIntentScore. cbn [social_share_refresh social_share_patch
    total_transactions unique_protocols consecutive_days max_consecutive_days
    social_shares]. repeat split.
Qed.

Lemma calculateIntentScore_score_patch score current row :
  calculateIntentScore (score_patch score current row) = calculateIntentScore row.
Proof. reflexivity. Qed.

(** X17: when the datastore answers every call of an accepted request,
    the response reports what is stored: the identity badge and the
    three counters are those of the user's row, the score reported is
    the score of the stored counters, and the score stored is the score
    reported rounded to two decimals, as the column keeps it. *)
Theorem response_reports_stored_row
    (env : Env) (req : Request) (b : Body) (uid wallet : string) (w : World) :
  accepted req b uid wallet ->
  progress_calls_succeed env ->
  badge_calls_succeed env ->
  update_score_error env = false ->
  exists payload w' row,
    handler env req w = (Ok payload, w') /\
    user_badge_progress (db w') !! uid = Some row /\
    two_decimals_of (intentScore payload) (intent_score row) /\
    intentScore payload = calculateIntentScore row /\
    current_identity_badge row = currentIdentityBadge payload /\
    totalTransactions (progress payload) = total_transactions row /\
    uniqueProtocols (progress payload) = unique_protocols row /\
    consecutiveDays (progress payload) = consecutive_days row.
Proof.
  intros Hreq Hprogress Hbadges Hscore.
  rewrite (handler_run env req b uid wallet w Hreq Hprogress).
  destruct (unlock_loop_returns env b uid wallet
              (unlocked_before (evaluation_world env b uid wallet w) uid)
              (progress_after env b (loaded_progress w uid wallet))
              (active_catalog (evaluation_world env b uid wallet w)) []
              (evaluation_world env b uid wallet w))
    as (news & w' & Hloop & Htable).
  rewrite (evaluate_badges_run _ _ _ _ _ _ _ _ Hbadges Hloop).
  eexists _, _, _. split; [reflexivity |].
  unfold score_world. rewrite Hscore. simpl.
  rewrite lookup_alter_eq, Htable, evaluation_world_lookup. simpl.
  split; [reflexivity |]. split; [apply numeric_4_2_two_decimals |].
  rewrite calculateIntentScore_score_patch.
  cbn [score_patch current_identity_badge total_transactions unique_protocols
         consecutive_days].
  destruct (progress_after_stored env b (loaded_progress w uid wallet))
    as (Hsame & Htotal & Hprotocols & Hdays).
  rewrite evaluation_world_catalog, evaluation_world_unlocked_before.
  repeat split; assumption.
Qed.

(** A fresh user's first transaction: the response carries the score
    29/75 = 0.3866..., the row keeps 0.39. *)
Lemma response_reports_stored_row_witness :
  exists payload w' row,
    handler Sample.env Sample.transaction_request Sample.empty_world = (Ok payload, w') /\
    user_badge_progress (db w') !! "u1" = Some row /\
    two_decimals_of (intentScore payload) (intent_score row) /\
    (intentScore payload == 29 # 75)%Q /\
    (intent_score row == 39 # 100)%Q /\
    current_identity_badge row = currentIdentityBadge payload /\
    totalTransactions (progress payload) = total_transactions row.
Proof.
  destruct (response_reports_stored_row Sample.env Sample.transaction_request
              Sample.transaction_body "u1" "0xabc" Sample.empty_world)
    as (payload & w' & row & Hrun & Hrow & Hscore & Hreported & Hbadge & Htotal & _);
    try reflexivity.
  - repeat split; done.
  - repeat split.
  - split; reflexivity.
  - exists payload, w', row.
    split; [exact Hrun |]. split; [exact Hrow |]. split; [exact Hscore |].
    assert (handler Sample.env Sample.transaction_request Sample.empty_world
            = (Ok payload, w')) as Hvalue by exact Hrun.
    vm_compute in Hvalue. injection Hvalue as <- <-.
    vm_compute in Hrow. injection Hrow as <-.
    repeat split; reflexivity.
Defined.

(** The loop only unlocks badges that are not yet unlocked and whose
    criteria hold, whatever the catalog and the insertions. *)
Lemma unlock_loop_sound env b uid wallet ids progress catalog :
  forall news w, exists unlocked,
    unlocked `sublist_of` List.filter (eligible env ids progress) catalog /\
    unlock_loop env b uid wallet ids progress catalog news w
    = (Returned (news ++ (slug <$> unlocked)),
       unlocked_world (unlock_row b uid wallet <$> unlocked)
         ((fun badge => unlocked_line badge wallet) <$> unlocked) w).
Proof.
  induction catalog as [|badge rest IH]; intros news w.
  - exists []. split; [constructor |].
    cbn [unlock_loop fmap list_fmap]. now rewrite app_nil_r, unlocked_world_nil.
  - cbn [unlock_loop List.filter]. unfold eligible at 1.
    destruct (bool_decide (id badge ∈ ids)); [apply IH |].
    destruct (checkBadgeCriteria (now_at env (id badge)) badge progress); [| apply IH].
    cbn [negb andb].
    unfold mbind at 1, Eff_bind at 1. rewrite insert_unlock_run.
    destruct (_ || _).
    + destruct (IH news w) as (unlocked & Hsub & ->).
      exists unlocked. split; [now constructor | reflexivity].
    + unfold mbind at 1, Eff_bind at 1. cbn [modify_world].
      destruct (IH (news ++ [slug badge])
                  (console_log (unlocked_line badge wallet)
                     (with_unlocks (badge_unlocks (db w) ++ [unlock_row b uid wallet badge]) w)))
        as (unlocked & Hsub & ->).
      exists (badge :: unlocked). split; [now constructor |].
      rewrite !fmap_cons. now rewrite unlocked_world_cons, <- app_assoc.
Qed.

Lemma evaluate_badges_throws env b uid wallet progress w :
  select_badges_error env = true \/ select_unlocks_error env = true ->
  evaluate_badges env b uid wallet progress w = (Thrown, w).
Proof.
  unfold evaluate_badges, select_active_badges, select_unlocks.
  destruct (select_badges_error env); [reflexivity |].
  intros [H|H]; [discriminate | rewrite H; reflexivity].
Qed.

(** X18: whatever the catalog holds and whatever the datastore answers
    to the evaluation, an accepted request only unlocks badges of the
    active catalog that the user had not unlocked before and whose
    criteria hold for the progress the event leaves: the rows it adds
    and the slugs it reports are those of such badges, in catalog
    order. *)
Theorem unlocks_are_earned
    (env : Env) (req : Request) (b : Body) (uid wallet : string) (w : World) :
  accepted req b uid wallet ->
  progress_calls_succeed env ->
  exists unlocked,
    unlocked `sublist_of`
      List.filter
        (eligible env (unlocked_before w uid)
           (progress_after env b (loaded_progress w uid wallet)))
        (active_catalog w) /\
    badge_unlocks (db (handler env req w).2)
    = badge_unlocks (db w) ++ (unlock_row b uid wallet <$> unlocked) /\
    forall payload,
      (handler env req w).1 = Ok payload -> newUnlocks payload = slug <$> unlocked.
Proof.
  intros Hreq Hprogress.
  rewrite (handler_run env req b uid wallet w Hreq Hprogress).
  destruct (select_badges_error env) eqn:Hbadges.
  { exists []. split; [apply sublist_nil_l |].
    rewrite evaluate_badges_throws by auto. simpl.
    rewrite evaluation_world_unlocks, app_nil_r. split; [reflexivity | discriminate]. }
  destruct (select_unlocks_error env) eqn:Hunlocks.
  { exists []. split; [apply sublist_nil_l |].
    rewrite evaluate_badges_throws by auto. simpl.
    rewrite evaluation_world_unlocks, app_nil_r. split; [reflexivity | discriminate]. }
  destruct (unlock_loop_sound env b uid wallet
              (unlocked_before (evaluation_world env b uid wallet w) uid)
              (progress_after env b (loaded_progress w uid wallet))
              (active_catalog (evaluation_world env b uid wallet w)) []
              (evaluation_world env b uid wallet w))
    as (unlocked & Hsub & Hloop).
  rewrite (evaluate_badges_run _ _ _ _ _ _ _ _ (conj Hbadges Hunlocks) Hloop).
  rewrite evaluation_world_catalog, evaluation_world_unlocked_before in Hsub.
  exists unlocked. split; [exact Hsub |]. simpl. split.
  - unfold score_world. destruct (update_score_error env); simpl;
      now rewrite evaluation_world_unlocks.
  - intros payload [= <-]. reflexivity.
Qed.

Lemma unlocks_are_earned_witness :
  exists unlocked,
    unlocked `sublist_of`
      List.filter
        (eligible Sample.env (unlocked_before Sample.world "u1")
           (progress_after Sample.env Sample.transaction_body
              (loaded_progress Sample.world "u1" "0xabc")))
        (active_catalog Sample.world) /\
    badge_unlocks (db (handler Sample.env Sample.transaction_request Sample.world).2)
    = badge_unlocks (db Sample.world)
      ++ (unlock_row Sample.transaction_body "u1" "0xabc" <$> unlocked) /\
    forall payload,
      (handler Sample.env Sample.transaction_request Sample.world).1 = Ok payload ->
      newUnlocks payload = slug <$> unlocked.
Proof.
  apply (unlocks_are_earned Sample.env Sample.transaction_request
           Sample.transaction_body "u1" "0xabc" Sample.world).
  - repeat split; done.
  - repeat split.
Defined.

(** X19: a transaction through a named protocol records it once: after
    the request the protocol is in [protocols_interacted], and
    [unique_protocols] is one more than before when the protocol is new
    and unchanged when it was already known. *)
Theorem transaction_counts_protocol_once
    (env : Env) (req : Request) (b : Body) (uid wallet p : string) (w : World) :
  accepted req b uid wallet ->
  action b = "transaction" ->
  progress_calls_succeed env ->
  eventData b ≫= ev_protocol = Some p ->
  p <> "" ->
  protocols_coherent (loaded_progress w uid wallet) ->
  exists row,
    user_badge_progress (db (handler env req w).2) !! uid = Some row /\
    p ∈ protocols_interacted row /\
    unique_protocols row
    = unique_protocols (loaded_progress w uid wallet)
      + (if bool_decide (p ∈ protocols_interacted (loaded_progress w uid wallet))
         then 0 else 1).
Proof.
  intros Hreq Haction Hcalls Hp Hne [Hcount _].
  apply (event_persisted env req b uid wallet w Hreq Hcalls
           (fun row =>
              p ∈ protocols_interacted row /\
              unique_protocols row
              = unique_protocols (loaded_progress w uid wallet)
                + (if bool_decide (p ∈ protocols_interacted (loaded_progress w uid wallet))
                   then 0 else 1))).
  - intros score current row H. exact H.
  - unfold action_patch. rewrite Haction. simpl. rewrite Hp, Hcount.
    unfold push_protocol, Js.truthy_str.
    destruct (String.eqb_spec p ""); [contradiction |]. simpl.
    case_bool_decide as Hin; simpl.
    + split; [exact Hin | lia].
    + split; [apply elem_of_app; right; now left |].
      rewrite length_app. simpl. lia.
Qed.

Lemma transaction_counts_protocol_once_witness :
  exists row,
    user_badge_progress (db (handler Sample.env Sample.transaction_request Sample.world).2)
      !! "u1" = Some row /\
    "arcflow" ∈ protocols_interacted row /\
    unique_protocols row = 4.
Proof.
  apply (transaction_counts_protocol_once Sample.env Sample.transaction_request
           Sample.transaction_body "u1" "0xabc" "arcflow" Sample.world); try reflexivity.
  - repeat split; done.
  - repeat split.
  - discriminate.
  - split; [reflexivity |].
    apply (bool_decide_unpack (NoDup (protocols_interacted Sample.veteran))).
    vm_compute. exact I.
Defined.

(** * The client hooks *)

Section SortedTake.

Context {A : Type} (R : A -> A -> Prop).

Lemma take_sorted n l : StronglySorted R l -> StronglySorted R (take n l).
Proof.
  intros Hsorted. rewrite <- (take_drop n l) in Hsorted.
  now apply StronglySorted_app_1_l in Hsorted.
Qed.

Lemma take_sorted_top n l :
  StronglySorted R l ->
  Forall (fun y => Forall (fun x => R x y) (take n l)) (drop n l).
Proof.
  intros Hsorted. rewrite <- (take_drop n l) in Hsorted.
  apply Forall_forall. intros y Hy. apply Forall_forall. intros x Hx.
  now apply (StronglySorted_app_1_elem_of R (take n l) (drop n l)).
Qed.

Lemma StronglySorted_weaken (R' : A -> A -> Prop) l :
  (forall x y, R x y -> R' x y) -> StronglySorted R l -> StronglySorted R' l.
Proof.
  intros Himpl. induction 1 as [|x l' Hsorted IH Hall]; constructor; [exact IH |].
  eapply Forall_impl; [exact Hall |]. auto.
Qed.

End SortedTake.

Lemma length_take_3 {A : Type} (l : list A) : (length (take 3 l) <= 3)%nat.
Proof. rewrite length_take. lia. Qed.

Lemma Qsgn_nonpos (a b : Q) : Client.Qsgn (b - a) <= 0 <-> (b <= a)%Q.
Proof.
  unfold Client.Qsgn. rewrite Z.sgn_nonpos.
  assert (Qnum (b - a) <= 0 <-> (b - a <= 0)%Q) as ->.
  { unfold Qle. simpl. lia. }
  split; intros H; lra.
Qed.

Lemma sorted_by_percentage l :
  StronglySorted (fun a b => (Client.percentage b <= Client.percentage a)%Q)
    (Array_sort Client.by_descending_percentage l).
Proof.
  eapply StronglySorted_weaken; [| apply (Array_sort_sorted Client.by_descending_percentage)].
  - intros a b H. now apply Qsgn_nonpos.
  - intros x y. unfold Client.by_descending_percentage. rewrite !Qsgn_nonpos.
    destruct (Qlt_le_dec (Client.percentage x) (Client.percentage y)) as [H|H];
      [right; lra | left; lra].
  - intros x y z. unfold Client.by_descending_percentage. rewrite !Qsgn_nonpos. lra.
Qed.

Lemma percentage_full (current : Z) (target : positive) :
  (Qmin (inject_Z current / inject_Z (Zpos target) * 100) 100 == 100)%Q
  <-> Zpos target <= current.
Proof.
  rewrite Q.min_r_iff. unfold Qle, Qdiv, Qmult, Qinv, inject_Z. simpl. lia.
Qed.

Lemma percentage_nonneg (current : Z) (target : positive) :
  0 <= current ->
  (0 <= Qmin (inject_Z current / inject_Z (Zpos target) * 100) 100)%Q.
Proof.
  intros H. apply Q.min_glb; [| discriminate].
  unfold Qle, Qdiv, Qmult, Qinv, inject_Z. simpl. lia.
Qed.

Lemma truthy_num_value k : Client.truthy_num k = true -> k = Some (Js.or0_opt k).
Proof.
  destruct k as [n|]; simpl; [| discriminate]. now rewrite or0_id.
Qed.

Lemma measure_measures progress c :
  let '(current, target, _) := Client.measure progress c in
  0 < target ->
  (min_transactions c = Some target /\ current = total_transactions progress) \/
  (min_consecutive_days c = Some target /\ current = consecutive_days progress) \/
  (min_protocols c = Some target /\ current = unique_protocols progress).
Proof.
  unfold Client.measure.
  destruct (Client.truthy_num (min_transactions c)) eqn:Ht.
  { intros _. left. split; [now apply truthy_num_value | reflexivity]. }
  destruct (Client.truthy_num (min_consecutive_days c)) eqn:Hd.
  { intros _. right. left. split; [now apply truthy_num_value | reflexivity]. }
  destruct (Client.truthy_num (min_protocols c)) eqn:Hp.
  { intros _. right. right. split; [now apply truthy_num_value | reflexivity]. }
  lia.
Qed.

Lemma milestone_Some progress ids b e :
  Client.milestone progress ids b = Some e ->
  Client.progress_badge e = b /\
  ~ id b ∈ ids /\
  0 < Client.targetValue e /\
  Client.percentage e
  = Qmin (inject_Z (Client.currentValue e) / inject_Z (Client.targetValue e) * 100) 100 /\
  measures progress e.
Proof.
  unfold Client.milestone, measures. case_bool_decide as Hheld; [discriminate |].
  pose proof (measure_measures progress (criteria b)) as Hmeasure.
  destruct (Client.measure progress (criteria b)) as [[current target] text].
  destruct (Z.gtb_spec target 0) as [Hpos|]; [| discriminate].
  intros [= <-]. simpl. repeat split; try assumption; try lia. now apply Hmeasure.
Qed.

Lemma progressList_ok badges progress unlocks e :
  e ∈ Client.progressList badges progress unlocks ->
  milestone_ok badges unlocks e /\ measures progress e.
Proof.
  unfold Client.progressList. rewrite list_elem_of_omap. intros (b & Hin & Hsome).
  apply milestone_Some in Hsome as (Hb & Hheld & Hpos & Hpct & Hmeasures).
  split; [| exact Hmeasures]. unfold milestone_ok. rewrite Hb, Hpct.
  destruct (Client.targetValue e) as [|target|]; try lia.
  repeat split; try assumption; try lia.
  - apply Q.le_min_r.
  - now apply percentage_full.
  - now apply percentage_full.
  - apply percentage_nonneg.
Qed.

Lemma shown_milestone_listed badges progress unlocks e :
  e ∈ Client.useBadgeProgressList badges (Some progress) unlocks ->
  e ∈ Client.progressList badges progress unlocks.
Proof.
  unfold Client.useBadgeProgressList. intros Hin.
  apply (fun H => elem_of_sublist _ _ _ H (sublist_take _ 3)) in Hin.
  now rewrite Array_sort_perm in Hin.
Qed.

(** X20: the profile page shows at most three milestones; each is for a
    badge of the catalog that is not unlocked, has a positive target and
    a percentage of at most 100, which is 100 exactly when the counter
    has reached the target and is not negative unless the counter is.
    Without a progress record there is no milestone. *)
Theorem milestones_well_formed
    (badges : list Badge) (progress : option UserProgress)
    (unlocks : list Client.BadgeUnlock) :
  (length (Client.useBadgeProgressList badges progress unlocks) <= 3)%nat /\
  Forall (milestone_ok badges unlocks)
    (Client.useBadgeProgressList badges progress unlocks) /\
  Client.useBadgeProgressList badges None unlocks = [].
Proof.
  split; [| split; [| reflexivity]].
  - destruct progress; simpl; [apply length_take_3 | lia].
  - destruct progress as [progress|]; [| constructor].
    apply Forall_forall. intros e He.
    apply (shown_milestone_listed badges progress unlocks), progressList_ok in He.
    apply He.
Qed.

(** X21: the milestones shown are the closest to completion: they come
    in decreasing order of percentage, and the candidates are the
    milestones shown together with others whose percentage is no higher
    than that of any milestone shown. *)
Theorem milestones_closest_first
    (badges : list Badge) (progress : UserProgress) (unlocks : list Client.BadgeUnlock) :
  StronglySorted (fun a b => (Client.percentage b <= Client.percentage a)%Q)
    (Client.useBadgeProgressList badges (Some progress) unlocks) /\
  exists left_out,
    Client.progressList badges progress unlocks
    ≡ₚ Client.useBadgeProgressList badges (Some progress) unlocks ++ left_out /\
    Forall
      (fun candidate =>
         Forall (fun shown => (Client.percentage candidate <= Client.percentage shown)%Q)
           (Client.useBadgeProgressList badges (Some progress) unlocks))
      left_out.
Proof.
  unfold Client.useBadgeProgressList. split.
  - apply take_sorted, sorted_by_percentage.
  - exists (drop 3 (Array_sort Client.by_descending_percentage
                      (Client.progressList badges progress unlocks))).
    split.
    + now rewrite take_drop, Array_sort_perm.
    + apply (take_sorted_top _ 3 _ (sorted_by_percentage _)).
Qed.

Lemma set_and_above_false_le t counter :
  t <> 0 -> Js.set_and_above (Some t) counter = false -> t <= counter.
Proof.
  intros Hne. unfold Js.set_and_above.
  destruct (Z.eqb_spec t 0); [contradiction |]. simpl.
  intros H. now apply Z.ltb_ge in H.
Qed.

(** X22: the page agrees with the service on a reached threshold: a
    milestone shown for a badge whose criteria the service finds
    satisfied shows 100 percent. *)
Theorem satisfied_badge_shows_full
    (now : Z) (badges : list Badge) (progress : UserProgress)
    (unlocks : list Client.BadgeUnlock) (e : Client.BadgeProgress) :
  e ∈ Client.useBadgeProgressList badges (Some progress) unlocks ->
  checkBadgeCriteria now (Client.progress_badge e) progress = true ->
  (Client.percentage e == 100)%Q.
Proof.
  intros He Hcheck.
  apply shown_milestone_listed, progressList_ok in He
    as ((_ & _ & Hpos & _ & Hfull & _) & Hmeasures).
  apply Hfull. revert Hcheck. unfold checkBadgeCriteria. cbv zeta.
  destruct (Js.set_and_above (min_transactions _) _) eqn:H1; [discriminate |].
  destruct (Js.set_and_above (min_consecutive_days _) _) eqn:H2; [discriminate |].
  destruct (Js.set_and_above (min_protocols _) _) eqn:H3; [discriminate |].
  intros _.
  destruct Hmeasures as [[Hkey ->]|[[Hkey ->]|[Hkey ->]]]; rewrite Hkey in *;
    eapply set_and_above_false_le; try eassumption; lia.
Qed.

Lemma satisfied_badge_shows_full_witness :
  (Client.percentage SampleMore.newcomer_milestone == 100)%Q.
Proof.
  apply (satisfied_badge_shows_full 0 SampleMore.client_badges Sample.veteran []).
  - apply list_elem_of_In. vm_compute. left. reflexivity.
  - reflexivity.
Defined.

(** The veteran, with nothing unlocked on the client: two milestones,
    both reached. *)
Example veteran_milestones :
  (fun e => (slug (Client.progress_badge e), Client.currentValue e, Client.targetValue e,
             Client.description e))
    <$> Client.useBadgeProgressList SampleMore.client_badges (Some Sample.veteran) []
  = [("newcomer", 120, 1, "120/1 transactions");
     ("active", 31, 7, "31/7 consecutive days")].
Proof. vm_compute. reflexivity. Qed.

(** ** useProfileBadges *)

Lemma unlocksByBadge_fold_Some (unlocks : list Client.BadgeUnlock) :
  forall (acc : gmap string Client.BadgeUnlock) k u,
    foldl (fun m u => <[Client.badgeId u := u]> m) acc unlocks !! k = Some u ->
    (u ∈ unlocks /\ Client.badgeId u = k) \/ acc !! k = Some u.
Proof.
  induction unlocks as [|v unlocks IH]; intros acc k u; simpl; [auto |].
  intros H. apply IH in H as [[Hin Hk]|H].
  - left. split; [now right | exact Hk].
  - rewrite lookup_insert in H. case_decide as Hv.
    + injection H as <-. left. split; [now left | exact Hv].
    + now right.
Qed.

Lemma unlocksByBadge_fold_is_Some (unlocks : list Client.BadgeUnlock) :
  forall (acc : gmap string Client.BadgeUnlock) k,
    is_Some (foldl (fun m u => <[Client.badgeId u := u]> m) acc unlocks !! k)
    <-> k ∈ Client.badgeId <$> unlocks \/ is_Some (acc !! k).
Proof.
  induction unlocks as [|v unlocks IH]; intros acc k; simpl.
  - split; [auto | intros [H|H]; [inversion H | exact H]].
  - rewrite IH, lookup_insert, elem_of_cons. case_decide as Hv.
    + split; [intros _; left; left; now symmetry | intros _; right; eauto].
    + split; [intros [H|H]; auto | intros [[H|H]|H]; auto]. congruence.
Qed.

Lemma unlocksByBadge_Some unlocks k u :
  Client.unlocksByBadge unlocks !! k = Some u -> u ∈ unlocks /\ Client.badgeId u = k.
Proof.
  intros H. apply unlocksByBadge_fold_Some in H as [H|H]; [exact H |].
  rewrite lookup_empty in H. discriminate.
Qed.

Lemma unlocksByBadge_is_Some unlocks k :
  is_Some (Client.unlocksByBadge unlocks !! k) <-> k ∈ Client.unlocked_ids unlocks.
Proof.
  unfold Client.unlocksByBadge, Client.unlocked_ids.
  rewrite unlocksByBadge_fold_is_Some, elem_of_list_to_set, lookup_empty.
  split; [intros [H|H]; [exact H | now inversion H] | auto].
Qed.

Lemma find_fmap {A B : Type} (P : B -> bool) (f : A -> B) (l : list A) :
  List.find P (f <$> l) = f <$> List.find (fun x => P (f x)) l.
Proof.
  induction l as [|x l IH]; simpl; [reflexivity |].
  destruct (P (f x)); [reflexivity | exact IH].
Qed.

Lemma elem_of_client_identityBadges badges b :
  b ∈ Client.identityBadges badges <-> b ∈ badges /\ layer b = "identity".
Proof.
  unfold Client.identityBadges. rewrite Array_sort_perm.
  rewrite list_elem_of_In, filter_In, <- list_elem_of_In, String.eqb_eq. reflexivity.
Qed.

Lemma client_identity_highest badges unlocks :
  profile_identity_highest badges unlocks
    (Client.identity (Client.useProfileBadges badges unlocks)).
Proof.
  unfold Client.useProfileBadges, profile_identity_highest. cbn [Client.identity].
  rewrite find_fmap.
  destruct (List.find _ (Client.identityBadges badges)) as [b|] eqn:Hfind; simpl.
  - pose proof (find_some _ _ Hfind) as [Hin Hheld].
    apply list_elem_of_In, elem_of_client_identityBadges in Hin as [Hin Hlayer].
    apply bool_decide_eq_true in Hheld. destruct Hheld as [u Hu]. rewrite Hu.
    apply unlocksByBadge_Some in Hu as Hu'. destruct Hu' as [Hunlock Hid].
    split; [exact Hunlock |]. exists b. repeat split; try assumption.
    intros other Hother Hlayer' Hheld'.
    apply by_descending_order_key.
    apply (find_sorted_first by_descending_order
             ltac:(intros; unfold by_descending_order; lia)
             (fun b => bool_decide (is_Some (Client.unlocksByBadge unlocks !! id b)))
             (Client.identityBadges badges)); try assumption.
    + apply Array_sort_sorted; intros; unfold by_descending_order in *; lia.
    + now apply elem_of_client_identityBadges.
    + apply bool_decide_eq_true. now apply unlocksByBadge_is_Some.
  - intros b Hin Hlayer Hheld.
    assert (b ∈ Client.identityBadges badges) as Hb
      by now apply elem_of_client_identityBadges.
    apply list_elem_of_In in Hb. pose proof (find_none _ _ Hfind b Hb) as Hnone.
    apply bool_decide_eq_false in Hnone. apply Hnone.
    now apply unlocksByBadge_is_Some.
Qed.


(** X24: the profile shows at most three event badges, all of them
    unlocks of the user for event-layer badges with the display flag
    set, in increasing display order (a missing order counting as 0). *)
Theorem profile_event_badges
    (badges : list Badge) (unlocks : list Client.BadgeUnlock) :
  (length (Client.event (Client.useProfileBadges badges unlocks)) <= 3)%nat /\
  Forall
    (fun u => u ∈ unlocks /\ Client.layer_is "event" u = true /\ Client.isDisplayed u = true)
    (Client.event (Client.useProfileBadges badges unlocks)) /\
  StronglySorted
    (fun a b => Js.or0_opt (Client.displayOrder a) <= Js.or0_opt (Client.displayOrder b))
    (Client.event (Client.useProfileBadges badges unlocks)).
Proof.
  cbn [Client.useProfileBadges Client.event].
  split; [apply length_take_3 |]. split.
  - apply Forall_forall. intros u Hu.
    apply (fun H => elem_of_sublist _ _ _ H (sublist_take _ 3)) in Hu.
    rewrite Array_sort_perm in Hu.
    apply list_elem_of_In, filter_In in Hu as [Hin Hflags].
    apply andb_true_iff in Hflags as [Hlayer Hshown].
    repeat split; try assumption. now apply list_elem_of_In.
  - apply take_sorted.
    eapply StronglySorted_weaken; [| apply (Array_sort_sorted Client.by_display_order)].
    + intros a b. unfold Client.by_display_order. lia.
    + intros x y. unfold Client.by_display_order. lia.
    + intros x y z. unfold Client.by_display_order. lia.
Qed.

(** X25: the profile and the service name the same identity badge.
    When the client's catalog holds the same badges as the service's,
    every identity-layer badge is a progression badge and no two
    identity-layer badges have the same order, there is a badge of the
    catalog whose slug the service computes as current from the same
    unlocks and whose unlock the profile shows; or the service gives
    null and the profile shows none. *)
Theorem profile_agrees_with_service
    (catalog badges : list Badge) (unlocks : list Client.BadgeUnlock) :
  catalog ≡ₚ badges ->
  (forall b, b ∈ badges -> layer b = "identity" -> is_progression b = true) ->
  (forall b1 b2, b1 ∈ badges -> b2 ∈ badges ->
                 layer b1 = "identity" -> layer b2 = "identity" ->
                 order_key b1 = order_key b2 -> b1 = b2) ->
  name_same_badge badges
    (find_current_identity_badge catalog (Client.unlocked_ids unlocks) [])
    (Client.identity (Client.useProfileBadges badges unlocks)).
Proof.
  intros Hperm Hprogression Hdistinct.
  pose proof (find_current_identity_badge_highest catalog (Client.unlocked_ids unlocks) []
                (fun b => id b ∈ Client.unlocked_ids unlocks)) as Hservice.
  specialize (Hservice ltac:(
    intros b _; unfold holds_badge;
    rewrite orb_true_iff, !bool_decide_eq_true; split;
    [intros [H|H]; [exact H | inversion H] | intros H; now left])).
  pose proof (client_identity_highest badges unlocks) as Hclient.
  unfold name_same_badge.
  destruct (find_current_identity_badge catalog (Client.unlocked_ids unlocks) [])
    as [s|] eqn:Hs;
    destruct (Client.identity (Client.useProfileBadges badges unlocks)) as [u|] eqn:Hu;
    simpl in Hservice, Hclient.
  - destruct Hservice as (bs & Hbs & [Hbs_layer Hbs_prog] & Hbs_held & Hslug & Hbs_max).
    destruct Hclient as (Hin & bc & Hbc & Hbc_layer & Hbc_id & Hbc_max).
    assert (bs ∈ badges) as Hbs' by now rewrite <- Hperm.
    assert (bc ∈ catalog) as Hbc' by now rewrite Hperm.
    assert (id bc ∈ Client.unlocked_ids unlocks) as Hbc_held.
    { rewrite <- Hbc_id. unfold Client.unlocked_ids.
      now apply elem_of_list_to_set, list_elem_of_fmap_2. }
    assert (bs = bc) as ->.
    { apply Hdistinct; auto.
      pose proof (Hbs_max bc Hbc' (conj Hbc_layer (Hprogression bc Hbc Hbc_layer)) Hbc_held).
      pose proof (Hbc_max bs Hbs' Hbs_layer Hbs_held). lia. }
    exists bc. auto.
  - destruct Hservice as (bs & Hbs & [Hbs_layer _] & Hbs_held & _).
    apply (Hclient bs); [now rewrite <- Hperm | exact Hbs_layer | exact Hbs_held].
  - destruct Hclient as (Hin & bc & Hbc & Hbc_layer & Hbc_id & _).
    assert (id bc ∈ Client.unlocked_ids unlocks) as Hbc_held.
    { rewrite <- Hbc_id. unfold Client.unlocked_ids.
      now apply elem_of_list_to_set, list_elem_of_fmap_2. }
    apply (Hservice bc); [now rewrite Hperm | | exact Hbc_held].
    split; [exact Hbc_layer | now apply Hprogression].
  - exact I.
Qed.

(** The veteran's profile and the service both name [newcomer]. *)
Lemma profile_agrees_with_service_witness :
  find_current_identity_badge (active_catalog Sample.world)
    (Client.unlocked_ids [SampleMore.newcomer_unlock]) [] = Some "newcomer" /\
  Client.identity
    (Client.useProfileBadges SampleMore.client_badges_by_layer
       [SampleMore.newcomer_unlock]) = Some SampleMore.newcomer_unlock /\
  name_same_badge SampleMore.client_badges_by_layer
    (find_current_identity_badge (active_catalog Sample.world)
       (Client.unlocked_ids [SampleMore.newcomer_unlock]) [])
    (Client.identity
       (Client.useProfileBadges SampleMore.client_badges_by_layer
          [SampleMore.newcomer_unlock])).
Proof.
  split; [vm_compute; reflexivity |]. split; [vm_compute; reflexivity |].
  apply profile_agrees_with_service.
  - symmetry. apply (Permutation_cons_append [Sample.newcomer; Sample.active]).
  - intros b Hb. repeat (apply elem_of_cons in Hb as [->|Hb]); try reflexivity;
      try discriminate. inversion Hb.
  - intros b1 b2 H1 H2.
    repeat (apply elem_of_cons in H1 as [->|H1]);
      repeat (apply elem_of_cons in H2 as [->|H2]);
      try (inversion H1; fail); try (inversion H2; fail);
      try reflexivity; try discriminate.
Defined.

(** * The nonce cleanup function *)

Lemma filter_negb_filter {A : Type} (f : A -> bool) (l : list A) :
  List.filter (fun x => negb (f x)) (List.filter (fun x => negb (f x)) l)
  = List.filter (fun x => negb (f x)) l.
Proof.
  induction l as [|x l IH]; simpl; [reflexivity |].
  destruct (f x) eqn:Hx; simpl; [exact IH |]. now rewrite Hx, IH.
Qed.

Lemma filter_filter_negb_nil {A : Type} (f : A -> bool) (l : list A) :
  List.filter f (List.filter (fun x => negb (f x)) l) = [].
Proof.
  induction l as [|x l IH]; simpl; [reflexivity |].
  destruct (f x) eqn:Hx; simpl; [exact IH |]. now rewrite Hx.
Qed.

Lemma filter_partition_length {A : Type} (f : A -> bool) (l : list A) :
  (length (List.filter f l) + length (List.filter (fun x => negb (f x)) l))%nat = length l.
Proof.
  induction l as [|x l IH]; simpl; [reflexivity |].
  destruct (f x); simpl; lia.
Qed.

Lemma cleanup_table env req w :
  Cleanup.siwe_nonces (Cleanup.handler env req w).2 = Cleanup.siwe_nonces w \/
  (Cleanup.rejected env req = false /\
   Cleanup.siwe_nonces (Cleanup.handler env req w).2
   = List.filter (fun n => negb (Cleanup.expired env n)) (Cleanup.siwe_nonces w)).
Proof.
  unfold Cleanup.handler.
  destruct (String.eqb _ _); [now left |].
  destruct (Cleanup.rejected env req); [now left |].
  destruct (Cleanup.delete_error env); [now left | now right].
Qed.

(** X26: the cleanup never deletes a nonce that has not expired and
    never adds or reorders one: whatever the request, the nonces that are
    still valid at the instant of the request are the same, in the same
    order, after it; and a request whose [Authorization] header is not
    the service-role bearer token changes no row at all. *)
Theorem cleanup_keeps_valid_nonces
    (env : Cleanup.Env) (req : Cleanup.Request) (w : Cleanup.World) :
  List.filter (fun n => negb (Cleanup.expired env n))
    (Cleanup.siwe_nonces (Cleanup.handler env req w).2)
  = List.filter (fun n => negb (Cleanup.expired env n)) (Cleanup.siwe_nonces w) /\
  (Cleanup.authorization req = Some ("Bearer " +:+ Cleanup.serviceKey env) \/
   Cleanup.siwe_nonces (Cleanup.handler env req w).2 = Cleanup.siwe_nonces w).
Proof.
  destruct (cleanup_table env req w) as [Hsame|[Hauth Hfilter]].
  - rewrite Hsame. auto.
  - rewrite Hfilter, filter_negb_filter. split; [reflexivity |]. left.
    unfold Cleanup.rejected in Hauth.
    destruct (Cleanup.authorization req) as [header|]; [| discriminate].
    apply orb_false_iff in Hauth as [_ Heq].
    apply negb_false_iff, String.eqb_eq in Heq. now rewrite Heq.
Qed.

(** X27: an authorized cleanup whose deletion succeeds leaves no expired
    nonce: every remaining nonce expires at or after the instant of the
    request, the response counts the rows deleted, which together with
    the rows left are the rows there were, and, when the count query
    answers, it reports the number of rows left. *)
Theorem cleanup_removes_expired
    (env : Cleanup.Env) (req : Cleanup.Request) (w : Cleanup.World) :
  String.eqb (Cleanup.method req) "OPTIONS" = false ->
  Cleanup.rejected env req = false ->
  Cleanup.delete_error env = false ->
  exists summary,
    (Cleanup.handler env req w).1 = Cleanup.Cleaned summary /\
    Forall (fun n => Cleanup.now env <= Cleanup.expires_at n)
      (Cleanup.siwe_nonces (Cleanup.handler env req w).2) /\
    (Cleanup.deleted summary
     + length (Cleanup.siwe_nonces (Cleanup.handler env req w).2))%nat
    = length (Cleanup.siwe_nonces w) /\
    (Cleanup.count_error env = false ->
     Cleanup.remaining summary
     = length (Cleanup.siwe_nonces (Cleanup.handler env req w).2)).
Proof.
  intros Hmethod Hauth Hdelete. unfold Cleanup.handler.
  rewrite Hmethod, Hauth, Hdelete. eexists. split; [reflexivity |]. simpl.
  split; [| split].
  - apply Forall_forall. intros n Hn.
    apply list_elem_of_In, filter_In in Hn as [_ Hn].
    unfold Cleanup.expired in Hn. apply negb_true_iff, Z.ltb_ge in Hn. exact Hn.
  - apply filter_partition_length.
  - intros ->. reflexivity.
Qed.

Lemma cleanup_removes_expired_witness :
  exists summary,
    (Cleanup.handler SampleMore.cleanup_env SampleMore.cleanup_request
       SampleMore.nonce_world).1 = Cleanup.Cleaned summary /\
    Forall (fun n => 1000 <= Cleanup.expires_at n)
      (Cleanup.siwe_nonces
         (Cleanup.handler SampleMore.cleanup_env SampleMore.cleanup_request
            SampleMore.nonce_world).2) /\
    (Cleanup.deleted summary
     + length (Cleanup.siwe_nonces
                 (Cleanup.handler SampleMore.cleanup_env SampleMore.cleanup_request
                    SampleMore.nonce_world).2))%nat
    = 3%nat /\
    (Cleanup.count_error SampleMore.cleanup_env = false ->
     Cleanup.remaining summary
     = length (Cleanup.siwe_nonces
                 (Cleanup.handler SampleMore.cleanup_env SampleMore.cleanup_request
                    SampleMore.nonce_world).2)).
Proof.
  apply (cleanup_removes_expired SampleMore.cleanup_env SampleMore.cleanup_request
           SampleMore.nonce_world); reflexivity.
Defined.

(** X28: the cleanup is idempotent: a second authorized cleanup at the
    same instant, right after a successful one, deletes nothing and
    leaves the table as the first left it. *)
Theorem cleanup_idempotent
    (env : Cleanup.Env) (req : Cleanup.Request) (w : Cleanup.World) :
  String.eqb (Cleanup.method req) "OPTIONS" = false ->
  Cleanup.rejected env req = false ->
  Cleanup.delete_error env = false ->
  exists summary,
    (Cleanup.handler env req (Cleanup.handler env req w).2).1 = Cleanup.Cleaned summary /\
    Cleanup.deleted summary = 0%nat /\
    Cleanup.siwe_nonces (Cleanup.handler env req (Cleanup.handler env req w).2).2
    = Cleanup.siwe_nonces (Cleanup.handler env req w).2.
Proof.
  intros Hmethod Hauth Hdelete. unfold Cleanup.handler.
  rewrite Hmethod, Hauth, Hdelete. eexists. split; [reflexivity |]. simpl.
  now rewrite filter_filter_negb_nil, filter_negb_filter.
Qed.

Lemma cleanup_idempotent_witness :
  exists summary,
    (Cleanup.handler SampleMore.cleanup_env SampleMore.cleanup_request
       (Cleanup.handler SampleMore.cleanup_env SampleMore.cleanup_request
          SampleMore.nonce_world).2).1 = Cleanup.Cleaned summary /\
    Cleanup.deleted summary = 0%nat /\
    Cleanup.siwe_nonces
      (Cleanup.handler SampleMore.cleanup_env SampleMore.cleanup_request
         (Cleanup.handler SampleMore.cleanup_env SampleMore.cleanup_request
            SampleMore.nonce_world).2).2
    = Cleanup.siwe_nonces
        (Cleanup.handler SampleMore.cleanup_env SampleMore.cleanup_request
           SampleMore.nonce_world).2.
Proof.
  apply (cleanup_idempotent SampleMore.cleanup_env SampleMore.cleanup_request
           SampleMore.nonce_world); reflexivity.
Defined.
